(** * lib/mongo: the data-access layer of yttrex, and its failure policy

    A shallow embedding of [lib/mongo.js]: every exported operation opens a
    connection scope with [Promise.using(dbConnection(), ...)], issues one
    call to the MongoDB driver and closes the scope.  Three aggregation
    operations hang a [.catch] on the promise of [.toArray()] and
    [readLimit] hangs one on the whole scope: what these hear is reported
    to [alarms.reportAlarm] and answered with an empty array; everything
    else is let through.

    JavaScript values are an inductive type, objects are finite maps from
    property names to values, promises are state transformers over a
    [world] that holds the store, the handle counter and a journal of what
    the module did to its collaborators (driver and alarm sink).
    Diagnostic output ([debug], [debugread], [debugcount]) is not part of
    the model. *)

From stdpp Require Import base strings gmap list pretty.

#[local] Set Warnings "-register-all".

(** ** JavaScript values *)

(** Numbers as far as the module looks at them: [NaN], tested by
    [_.isNaN], and the integers used as counts, limits and directions. *)
Inductive number :=
| NaN
| Num (z : Z).

Inductive value :=
| VUndefined
| VNull
| VBool (b : bool)
| VNum (n : number)
| VStr (s : string)
| VErr (kind msg : string)              (* an Error object *)
| VArr (items : list value)
| VObj (props : gmap string value).

(** [new Error(msg)] *)
Definition Error (msg : string) : value := VErr "Error" msg.

(** The JavaScript engine, as far as the modules can tell one from another:
    the message of the TypeError it throws on [object[key]] when [object] is
    [undefined] or [null].  The text differs from engine to engine and is
    left to it. *)
Record Engine := {
  cannot_read : value → string → string
}.

(** What the engine throws on [undefined[key]] and [null[key]]. *)
Definition TypeError (E : Engine) (object : value) (key : string) : value :=
  VErr "TypeError" (cannot_read E object key).

(** The elements of an array (or the characters of a string) under their
    index keys ["0"], ["1"], ... *)
Definition indexed (items : list value) : gmap string value :=
  list_to_map (imap (λ i v, (pretty i, v)) items).

Definition chars (s : string) : list value :=
  (λ c, VStr (String c EmptyString)) <$> String.list_ascii_of_string s.

(** Own enumerable string-keyed properties. *)
Definition own_props (v : value) : gmap string value :=
  match v with
  | VObj props => props
  | VArr items => indexed items
  | VStr s => indexed (chars s)
  | _ => ∅
  end.

(** [v[key]]; [None] stands for the TypeError of reading a property of
    [undefined] or [null]. *)
Definition member (v : value) (key : string) : option value :=
  match v with
  | VUndefined | VNull => None
  | VObj props => Some (default VUndefined (props !! key))
  | VArr items =>
      Some (if String.eqb key "length" then VNum (Num (Z.of_nat (length items)))
            else default VUndefined (indexed items !! key))
  | VStr s =>
      Some (if String.eqb key "length" then VNum (Num (Z.of_nat (String.length s)))
            else default VUndefined (indexed (chars s) !! key))
  | VErr kind msg =>
      Some (if String.eqb key "message" then VStr msg
            else if String.eqb key "name" then VStr kind
            else VUndefined)
  | VBool _ | VNum _ => Some VUndefined
  end.

(** ** The lodash functions the module calls *)

Module lodash.

Definition isUndefined (v : value) : bool :=
  match v with VUndefined => true | _ => false end.

(** [isNumber(value) && value != +value] *)
Definition isNaN (v : value) : bool :=
  match v with VNum NaN => true | _ => false end.

(** Arrays and error objects are objects too; [null] is not. *)
Definition isObject (v : value) : bool :=
  match v with VObj _ | VArr _ | VErr _ _ => true | _ => false end.

(** The names of the own properties (in the order of the map: the module
    only ever takes their number). *)
Definition keys (v : value) : list string := (map_to_list (own_props v)).*1.

Definition size {A} (l : list A) : nat := length l.

(** [baseToString]: strings as they are, arrays element-wise joined by
    commas, everything else as [value + ''] prints it. *)
Fixpoint baseToString (v : value) : string :=
  match v with
  | VStr s => s
  | VArr items => String.concat "," (map baseToString items)
  | VUndefined => "undefined"
  | VNull => "null"
  | VBool true => "true"
  | VBool false => "false"
  | VNum NaN => "NaN"
  | VNum (Num z) => pretty z
  | VErr kind msg => kind +:+ ": " +:+ msg
  | VObj _ => "[object Object]"
  end.

Definition toString (v : value) : string :=
  match v with
  | VUndefined | VNull => ""
  | _ => baseToString v
  end.

Definition startsWith (v : value) (target : string) : bool :=
  String.prefix target (toString v).

(** [_.extend(object, source)] ([assignIn]): every property of [source]
    is assigned on [object]; the result is the updated [object]. *)
Definition extend (object source : value) : value :=
  match object with
  | VObj props => VObj (own_props source ∪ props)
  | _ => object
  end.

End lodash.

(** ** The MongoDB driver, as the module uses it *)

Module Mongo.

(** What [find(selector)], [.sort], [.skip] and [.limit] accumulate. *)
Record cursor := Cursor {
  cur_selector : value;
  cur_sort : option value;
  cur_skip : option value;
  cur_limit : option value
}.

(** The calls the module makes on [db.collection(cName)] (for
    [ensureIndex], on [db] with [cName] first). *)
Inductive request :=
| insert (doc : value)
| updateOne (selector updated : value) (options : option value)
| insertMany (docs : value)
| toArray (cur : cursor)
| remove (selector : value)
| count (selector : value)
| aggregate (pipeline : list value)
| update (selector doc : value)
| save (doc : value)
| ensureIndex (index opt : value)
| distinct (field query : value).

(** A driver over some store: [connectAsync] answers [Some reason] when
    the connection is refused, and a request answers with its result
    ([inl]) or with the error it fails with ([inr]), and the store it
    leaves behind.  A call fails in one of two ways, and [throws] tells
    which: [db.collection(cName)] or the method itself throws before there
    is a promise ([true]), or the promise of [.toArray()] and the like is
    rejected ([false]); a caller that hangs no [.catch] on that promise sees
    no difference.  The driver comes with the [engine] it runs on. *)
Record Driver := {
  Store : Type;
  engine : Engine;
  connectAsync : Store → option value;
  execute : string → request → Store → (value + value) * Store;
  throws : string → request → Store → bool
}.

End Mongo.

(** ** The world the module acts on *)

Inductive event :=
| Acquire (h : nat)                                  (* connectAsync fulfilled *)
| Refused (reason : value)                           (* connectAsync rejected *)
| Call (h : nat) (cName : string) (q : Mongo.request)
                             (* made on [db]: answered, rejected or thrown *)
| Release (h : nat)                                  (* db.close() *)
| Alarm (record : value).                            (* alarms.reportAlarm *)

(** How a promise ends. *)
Inductive settled :=
| Fulfilled (v : value)
| Rejected (reason : value).

(** How a driver's answer settles the promise of the call. *)
Definition settles (r : value + value) : settled :=
  match r with inl v => Fulfilled v | inr e => Rejected e end.

Section Layer.

Context (D : Mongo.Driver).

Record world := World {
  store : Mongo.Store D;
  issued : nat;                 (* handles handed out so far *)
  journal : list event          (* oldest first *)
}.

Definition initial (st : Mongo.Store D) : world := World st 0 [].

Definition record (e : event) (w : world) : world :=
  World (store w) (issued w) (journal w ++ [e]).

(** *** Promises *)

Definition promise := world → settled * world.

Definition resolve (v : value) : promise := λ w, (Fulfilled v, w).

Definition then_ (p : promise) (k : value → promise) : promise := λ w,
  match p w with
  | (Fulfilled v, w') => k v w'
  | (Rejected e, w') => (Rejected e, w')
  end.

Definition catch (p : promise) (handler : value → promise) : promise := λ w,
  match p w with
  | (Fulfilled v, w') => (Fulfilled v, w')
  | (Rejected e, w') => handler e w'
  end.

(** [.return(v)] *)
Definition return_ (p : promise) (v : value) : promise :=
  then_ p (λ _, resolve v).

(** [.tap(handler)] with a handler that only writes a diagnostic line. *)
Definition tap (p : promise) : promise := p.

(** [Promise.each(list, iterator)]: one element after the other, stopping
    at the first rejection; fulfilled with the list itself. *)
Fixpoint each_from (l : list value) (iterator : value → promise) : promise :=
  match l with
  | [] => resolve VUndefined
  | e :: rest => then_ (iterator e) (λ _, each_from rest iterator)
  end.

Definition Promise_each (l : list value) (iterator : value → promise) : promise :=
  then_ (each_from l iterator) (λ _, resolve (VArr l)).

(** A call on the collection [cName] through handle [h]. *)
Definition call (h : nat) (cName : string) (q : Mongo.request) : promise := λ w,
  let '(r, st) := Mongo.execute D cName q (store w) in
  (settles r, World st (issued w) (journal w ++ [Call h cName q])).

(** [db.collection(cName). ... .toArray().catch(handler)]: the handler is
    hung on the promise of [.toArray()], so it hears the rejection of that
    promise; what [db.collection(cName)] or the method before [.toArray()]
    throws leaves the enclosing function before any [.catch] exists. *)
Definition caught_call (h : nat) (cName : string) (q : Mongo.request)
    (handler : value → promise) : promise := λ w,
  if Mongo.throws D cName q (store w)
  then call h cName q w
  else catch (call h cName q) handler w.

(** [Promise.using(dbConnection(), handler)]: [dbConnection] connects to
    the configured url and registers [db.close()] as disposer.  A refused
    connection rejects without running handler or disposer; otherwise the
    disposer runs once the handler's promise has settled, and the result
    settles the same way after it. *)
Definition Promise_using (handler : nat → promise) : promise := λ w,
  match Mongo.connectAsync D (store w) with
  | Some reason => (Rejected reason, record (Refused reason) w)
  | None =>
      let h := issued w in
      let '(r, w') := handler h (World (store w) (S h) (journal w ++ [Acquire h])) in
      (r, record (Release h) w')
  end.

(** Modelled from the spec: [alarms.reportAlarm] of [lib/alarms.js], which
    is not among the sources.  The alarm sink is consumed fire-and-forget:
    it receives the record, nothing it returns is looked at, and it does
    not fail the caller. *)
Definition reportAlarm (record_ : value) : world → world :=
  record (Alarm record_).

(** *** What a call of an exported function does *)

Inductive completion :=
| Throws (e : value)           (* an exception before any promise exists *)
| Settles (s : settled).       (* a promise, and how it settles *)

Definition operation := world → completion * world.

Definition throw (e : value) : operation := λ w, (Throws e, w).

Definition returns (p : promise) : operation := λ w,
  let '(s, w') := p w in (Settles s, w').

(** *** The exported functions *)

Definition writeOne (cName : string) (dataObject : value) : operation :=
  returns (return_ (Promise_using (λ db, call db cName (Mongo.insert dataObject)))
                   dataObject).

Definition updateOne (cName : string) (selector updated : value) : operation :=
  returns (return_ (Promise_using (λ db,
    call db cName (Mongo.updateOne selector updated None))) updated).

Definition upsertOne (cName : string) (selector updated : value) : operation :=
  returns (return_ (Promise_using (λ db,
    call db cName (Mongo.updateOne selector updated
                     (Some (VObj {[ "upsert" := VBool true ]}))))) updated).

Definition writeMany (cName : string) (dataObjects : value) : operation :=
  returns (Promise_using (λ db, call db cName (Mongo.insertMany dataObjects))).

Definition read (cName : string) (selector sorter : value) : operation :=
  let sorter := if lodash.isUndefined sorter then VObj ∅ else sorter in
  returns (tap (Promise_using (λ db,
    call db cName (Mongo.toArray (Mongo.Cursor selector (Some sorter) None None))))).

Definition remove (cName : string) (selector : value) : operation :=
  if Nat.eqb (lodash.size (lodash.keys selector)) 0
  then throw (Error "Nope, you can't delete {} ")
  else returns (Promise_using (λ db, call db cName (Mongo.remove selector))).

Definition readLimit (cName : string) (selector sorter limitN past : value)
  : operation :=
  let past := if lodash.isNaN past then VNum (Num 0) else past in
  returns (catch
    (tap (Promise_using (λ db,
       call db cName (Mongo.toArray
         (Mongo.Cursor selector (Some sorter) (Some past) (Some limitN))))))
    (λ errstr w,
       (Fulfilled (VArr []),
        reportAlarm (VObj {[ "caller" := VStr "readLimit";
                             "what" := errstr;
                             "info" := VObj {[ "selector" := selector;
                                               "limit" := limitN;
                                               "sorter" := sorter ]} ]}) w))).

Definition countByMatch (cName : string) (selector : value) : operation :=
  returns (Promise_using (λ db, call db cName (Mongo.count selector))).

Definition aggregate (cName : string) (match_ group : value) : operation :=
  returns (tap (Promise_using (λ db,
    call db cName (Mongo.aggregate [ VObj {[ "$match" := match_ ]};
                                     VObj {[ "$group" := group ]} ])))).

(** The two local variables of [countByDay]. *)
Definition queryId (timeVarName aggext : value) : value :=
  let queryId := VObj {[ "year" := VObj {[ "$year" := timeVarName ]};
                         "month" := VObj {[ "$month" := timeVarName ]};
                         "day" := VObj {[ "$dayOfMonth" := timeVarName ]} ]} in
  if lodash.isObject aggext && Nat.ltb 0 (lodash.size (lodash.keys aggext))
  then lodash.extend queryId aggext
  else queryId.

Definition totalQ (timeVarName filter aggext : value) : list value :=
  [ VObj {[ "$match" := filter ]};
    VObj {[ "$group" :=
      VObj {[ "_id" := queryId timeVarName aggext;
              "count" := VObj {[ "$sum" := VNum (Num 1) ]} ]} ]} ].

Definition countByDay (cName : string) (timeVarName filter aggext : value)
  : operation :=
  if negb (lodash.startsWith timeVarName "$")
  then throw (Error "developer please: mongoVar wants '$'")
  else
    returns (tap (Promise_using (λ db,
      caught_call db cName (Mongo.aggregate (totalQ timeVarName filter aggext))
        (λ error w,
           (Fulfilled (VArr []),
            reportAlarm (VObj {[ "caller" := VStr "countByDay";
                                 "what" := error;
                                 "info" := VObj {[ "cName" := VStr cName;
                                                   "timeVarName" := timeVarName;
                                                   "filter" := filter;
                                                   "aggext" := aggext ]} ]}) w))))).

Definition countByObject (cName : string) (idobj : value) : operation :=
  let idobj := if lodash.isUndefined idobj then VObj ∅ else idobj in
  returns (Promise_using (λ db,
    caught_call db cName (Mongo.aggregate
             [ VObj {[ "$group" :=
                 VObj {[ "_id" := idobj;
                         "count" := VObj {[ "$sum" := VNum (Num 1) ]} ]} ]};
               VObj {[ "$sort" := VObj {[ "count" := VNum (Num (-1)) ]} ]} ])
      (λ error w,
         (Fulfilled (VArr []),
          reportAlarm (VObj {[ "caller" := VStr "countByObject";
                               "what" := error;
                               "info" := VObj {[ "cName" := VStr cName;
                                                 "idobj" := idobj ]} ]}) w)))).

(** The [_.each] loop at the head of [updateMany]: the error it throws at
    the first element without [id], if any. *)
Fixpoint check_ids (elist : list value) : option value :=
  match elist with
  | [] => None
  | e :: rest =>
      match member e "id" with
      | None => Some (TypeError (Mongo.engine D) e "id")
      | Some id =>
          if lodash.isUndefined id
          then Some (Error "we need id in every element")
          else check_ids rest
      end
  end.

Definition updateMany (cName : string) (elist : list value) : operation :=
  match check_ids elist with
  | Some e => throw e
  | None =>
      returns (Promise_each elist (λ e,
        Promise_using (λ db,
          call db cName
            (Mongo.update (VObj {[ "id" := default VUndefined (member e "id") ]}) e))))
  end.

Definition lookup (cName : string) (query sequence : value) : operation :=
  returns (Promise_using (λ db,
    caught_call db cName (Mongo.aggregate [ query; sequence ])
      (λ error w,
         (Fulfilled (VArr []),
          reportAlarm (VObj {[ "caller" := VStr "lookup";
                               "what" := error;
                               "info" := VObj {[ "cName" := VStr cName;
                                                 "query" := query;
                                                 "sequence" := sequence ]} ]}) w)))).

Definition save (cName : string) (doc : value) : operation :=
  returns (Promise_using (λ db, call db cName (Mongo.save doc))).

Definition createIndex (cName : string) (index opt : value) : operation :=
  returns (tap (Promise_using (λ db, call db cName (Mongo.ensureIndex index opt)))).

Definition distinct (cName : string) (field query : value) : operation :=
  returns (tap (Promise_using (λ db, call db cName (Mongo.distinct field query)))).

(** *** [module.exports] *)

Inductive invocation :=
| call_updateOne (cName : string) (selector updated : value)
| call_upsertOne (cName : string) (selector updated : value)
| call_writeOne (cName : string) (dataObject : value)
| call_writeMany (cName : string) (dataObjects : value)
| call_readLimit (cName : string) (selector sorter limitN past : value)
| call_countByDay (cName : string) (timeVarName filter aggext : value)
| call_countByMatch (cName : string) (selector : value)
| call_countByObject (cName : string) (idobj : value)
| call_read (cName : string) (selector sorter : value)
| call_remove (cName : string) (selector : value)
| call_aggregate (cName : string) (match_ group : value)
| call_updateMany (cName : string) (elist : list value)
| call_lookup (cName : string) (query sequence : value)
| call_save (cName : string) (doc : value)
| call_createIndex (cName : string) (index opt : value)
| call_distinct (cName : string) (field query : value).

Definition invoke (i : invocation) : operation :=
  match i with
  | call_updateOne c s u => updateOne c s u
  | call_upsertOne c s u => upsertOne c s u
  | call_writeOne c d => writeOne c d
  | call_writeMany c ds => writeMany c ds
  | call_readLimit c s o l p => readLimit c s o l p
  | call_countByDay c t f a => countByDay c t f a
  | call_countByMatch c s => countByMatch c s
  | call_countByObject c i => countByObject c i
  | call_read c s o => read c s o
  | call_remove c s => remove c s
  | call_aggregate c m g => aggregate c m g
  | call_updateMany c l => updateMany c l
  | call_lookup c q s => lookup c q s
  | call_save c d => save c d
  | call_createIndex c i o => createIndex c i o
  | call_distinct c f q => distinct c f q
  end.

(** Any mix of calls, one after the other; a call that throws or rejects
    does not stop the caller from making the next one. *)
Definition session (calls : list invocation) (w : world) : world :=
  foldl (λ w i, (invoke i w).2) w calls.

End Layer.

Arguments World {D} _ _ _.
Arguments store {D} _.
Arguments issued {D} _.
Arguments journal {D} _.
Arguments initial {D} _.
Arguments record {D} _ _.
Arguments resolve {D} _ _.
Arguments then_ {D} _ _ _.
Arguments catch {D} _ _ _.
Arguments return_ {D} _ _ _.
Arguments tap {D} _ _.
Arguments each_from {D} _ _ _.
Arguments Promise_each {D} _ _ _.
Arguments call {D} _ _ _ _.
Arguments caught_call {D} _ _ _ _ _.
Arguments check_ids {D} _.
Arguments Promise_using {D} _ _.
Arguments reportAlarm {D} _ _.
Arguments throw {D} _ _.
Arguments returns {D} _ _.
Arguments writeOne {D} _ _ _.
Arguments updateOne {D} _ _ _ _.
Arguments upsertOne {D} _ _ _ _.
Arguments writeMany {D} _ _ _.
Arguments read {D} _ _ _ _.
Arguments remove {D} _ _ _.
Arguments readLimit {D} _ _ _ _ _ _.
Arguments countByMatch {D} _ _ _.
Arguments aggregate {D} _ _ _ _.
Arguments countByDay {D} _ _ _ _ _.
Arguments countByObject {D} _ _ _.
Arguments updateMany {D} _ _ _.
Arguments lookup {D} _ _ _ _.
Arguments save {D} _ _ _.
Arguments createIndex {D} _ _ _ _.
Arguments distinct {D} _ _ _ _.
Arguments invoke {D} _ _.
Arguments session {D} _ _.

(** ** Reading a journal *)

(** The handles acquired, and the handles released, in the order in which
    it happened. *)
Definition acquired (j : list event) : list nat :=
  omap (λ e, match e with Acquire h => Some h | _ => None end) j.

Definition released (j : list event) : list nat :=
  omap (λ e, match e with Release h => Some h | _ => None end) j.

(** The requests handed to the driver, with their collection, whatever
    the driver made of them. *)
Definition requests (j : list event) : list (string * Mongo.request) :=
  omap (λ e, match e with Call _ c q => Some (c, q) | _ => None end) j.

(** The records that went to the alarm sink. *)
Definition alarms (j : list event) : list value :=
  omap (λ e, match e with Alarm r => Some r | _ => None end) j.

(** The Alarm Record of the data model: [{caller, what, info}]. *)
Definition alarm_record (caller : string) (what info : value) : value :=
  VObj {[ "caller" := VStr caller; "what" := what; "info" := info ]}.

(** An element of a batch carries an identifier when [e['id']] is defined. *)
Definition has_id (e : value) : bool :=
  match member e "id" with
  | Some id => negb (lodash.isUndefined id)
  | None => false
  end.

(** What may happen while handle [h] is held: calls through [h], alarms. *)
Definition within (h : nat) (e : event) : Prop :=
  match e with
  | Call h' _ _ => h' = h
  | Alarm _ => True
  | _ => False
  end.

(** What may happen while no handle is held: refusals, alarms. *)
Definition between (e : event) : Prop :=
  match e with
  | Refused _ | Alarm _ => True
  | _ => False
  end.

(** A stretch of journal made of closed scopes: [scopes n evs m] when [evs]
    acquires the handles from [n] up to [m] one after the other, each
    acquisition followed by calls through that handle (and alarms) and then
    by the release of that handle, with only refusals and alarms outside. *)
Inductive scopes : nat → list event → nat → Prop :=
| scopes_done n : scopes n [] n
| scopes_between n e evs m :
    between e → scopes n evs m → scopes n (e :: evs) m
| scopes_scope n held evs m :
    Forall (within n) held →
    scopes (S n) evs m →
    scopes n (Acquire n :: held ++ Release n :: evs) m.

Section Contracts.

Context {D : Mongo.Driver}.

(** A store honours skip and limit when a cursor with a non-negative
    integer skip [n] and a positive integer limit [l] yields at most [l] of
    the documents after the first [n] of [sorted cName selector sorter] (the
    documents of the collection that the selector picks, in the order of the
    sorter), and reading does not change the store. *)
Definition honours_skip_and_limit (st : Mongo.Store D)
    (sorted : string → value → value → list value) : Prop :=
  ∀ cName selector sorter (n l : nat),
    0 < l →
    Mongo.execute D cName
      (Mongo.toArray (Mongo.Cursor selector (Some sorter)
                        (Some (VNum (Num (Z.of_nat n))))
                        (Some (VNum (Num (Z.of_nat l)))))) st
    = (inl (VArr (take l (drop n (sorted cName selector sorter)))), st).

(** One element of a batch goes through: a connection scope of its own,
    inside it the driver's [update] with the element's identifier as
    selector and the element as document, and the update succeeds. *)
Definition applied (cName : string) (e : value) (w w' : world D) : Prop :=
  ∃ id v st,
    member e "id" = Some id ∧
    Mongo.connectAsync D (store w) = None ∧
    Mongo.execute D cName (Mongo.update (VObj {[ "id" := id ]}) e) (store w)
      = (inl v, st) ∧
    w' = World st (S (issued w))
           (journal w ++ [Acquire (issued w);
                          Call (issued w) cName (Mongo.update (VObj {[ "id" := id ]}) e);
                          Release (issued w)]).

(** One element fails with [reason]: its connection is refused, or its
    update raises inside its scope. *)
Definition failed (cName : string) (e reason : value) (w w' : world D) : Prop :=
  (Mongo.connectAsync D (store w) = Some reason ∧
   w' = World (store w) (issued w) (journal w ++ [Refused reason])) ∨
  (∃ id st,
     member e "id" = Some id ∧
     Mongo.connectAsync D (store w) = None ∧
     Mongo.execute D cName (Mongo.update (VObj {[ "id" := id ]}) e) (store w)
       = (inr reason, st) ∧
     w' = World st (S (issued w))
            (journal w ++ [Acquire (issued w);
                           Call (issued w) cName (Mongo.update (VObj {[ "id" := id ]}) e);
                           Release (issued w)])).

(** The elements of a list go through one after the other. *)
Inductive applied_all (cName : string) : list value → world D → world D → Prop :=
| applied_nil w : applied_all cName [] w w
| applied_cons e rest w w1 w2 :
    applied cName e w w1 →
    applied_all cName rest w1 w2 →
    applied_all cName (e :: rest) w w2.

(** From [w] to [w'] by scopes that were all closed again. *)
Definition scoped (w w' : world D) : Prop :=
  ∃ evs, journal w' = journal w ++ evs ∧ scopes (issued w) evs (issued w').

(** From [w] to [w'] by what may happen while handle [h] is held. *)
Definition inside (h : nat) (w w' : world D) : Prop :=
  ∃ evs, journal w' = journal w ++ evs ∧
         Forall (within h) evs ∧
         issued w' = issued w.

End Contracts.

(** ** A simulated store *)

(** An in-memory driver to run the module against: collections are lists of
    documents, the connection can be down, and chosen requests can be made
    to raise.  Selectors compare top-level fields with primitive values;
    like the driver's cursor, [skip] and [limit] insist on numbers, and a
    limit of 0 is no limit.  Sorters and the stages of a pipeline are not
    interpreted: documents come in the order of insertion, and a pipeline
    yields no groups. *)
Module Sim.

Record state := State {
  online : bool;
  raises : string → Mongo.request → bool;
  collections : gmap string (list value)
}.

Definition same (a b : value) : bool :=
  match a, b with
  | VNum (Num x), VNum (Num y) => Z.eqb x y
  | VStr x, VStr y => String.eqb x y
  | VBool x, VBool y => Bool.eqb x y
  | VNull, VNull => true
  | _, _ => false
  end.

Definition matches (selector doc : value) : bool :=
  forallb (λ kv, match member doc kv.1 with
                 | Some v => same kv.2 v
                 | None => false
                 end) (map_to_list (own_props selector)).

Definition documents (st : state) (cName : string) : list value :=
  default [] (collections st !! cName).

Definition found (st : state) (cName : string) (selector : value) : list value :=
  filter (λ doc, matches selector doc = true) (documents st cName).

Definition put (st : state) (cName : string) (docs : list value) : state :=
  State (online st) (raises st) (<[cName := docs]> (collections st)).

Definition ack (n : nat) : value := VObj {[ "n" := VNum (Num (Z.of_nat n)) ]}.

Definition skipping (skip : option value) (docs : list value) : value + list value :=
  match skip with
  | None => inr docs
  | Some (VNum (Num z)) =>
      if Z.ltb z 0 then inl (VErr "MongoError" "skip must be non-negative")
      else inr (drop (Z.to_nat z) docs)
  | Some _ => inl (VErr "MongoError" "skip requires an integer")
  end.

Definition limiting (limit : option value) (docs : list value) : value + list value :=
  match limit with
  | None => inr docs
  | Some (VNum (Num z)) =>
      inr (if Z.eqb z 0 then docs else take (Z.to_nat (Z.abs z)) docs)
  | Some _ => inl (VErr "MongoError" "limit requires an integer")
  end.

(** The error of every request that was set up to raise. *)
Definition failure : value := VErr "MongoError" "simulated failure".

Definition run (cName : string) (q : Mongo.request) (st : state)
  : (value + value) * state :=
  if raises st cName q then (inr failure, st)
  else
    match q with
    | Mongo.insert doc | Mongo.save doc =>
        (inl (ack 1), put st cName (documents st cName ++ [doc]))
    | Mongo.insertMany (VArr docs) =>
        (inl (ack (length docs)), put st cName (documents st cName ++ docs))
    | Mongo.insertMany _ =>
        (inr (VErr "MongoError" "docs parameter must be an array of documents"), st)
    | Mongo.toArray cur =>
        match skipping (Mongo.cur_skip cur) (found st cName (Mongo.cur_selector cur)) with
        | inl e => (inr e, st)
        | inr docs =>
            match limiting (Mongo.cur_limit cur) docs with
            | inl e => (inr e, st)
            | inr docs => (inl (VArr docs), st)
            end
        end
    | Mongo.count selector =>
        (inl (VNum (Num (Z.of_nat (length (found st cName selector))))), st)
    | Mongo.remove selector =>
        (inl (ack (length (found st cName selector))),
         put st cName (filter (λ doc, matches selector doc = false) (documents st cName)))
    | Mongo.updateOne selector doc _ | Mongo.update selector doc =>
        (inl (ack (length (take 1 (found st cName selector)))),
         put st cName ((λ old, if matches selector old then doc else old)
                         <$> documents st cName))
    | Mongo.aggregate _ => (inl (VArr []), st)
    | Mongo.ensureIndex _ _ => (inl (VStr "index"), st)
    | Mongo.distinct _ _ => (inl (VArr []), st)
    end.

(** The engine under the simulated store words its TypeError as V8 does. *)
Definition v8 : Engine := {|
  cannot_read := λ object key,
    "Cannot read properties of " +:+ lodash.baseToString object +:+
    " (reading '" +:+ key +:+ "')"
|}.

(** Every failure of this driver is a rejected promise. *)
Definition driver : Mongo.Driver := {|
  Mongo.Store := state;
  Mongo.engine := v8;
  Mongo.connectAsync := λ st,
    if online st then None else Some (VErr "MongoError" "connect ECONNREFUSED");
  Mongo.execute := run;
  Mongo.throws := λ _ _ _, false
|}.

(** The world at the start of a run. *)
Definition boot (st : state) : world driver := initial (D:=driver) st.

(** Three videos; nothing raises. *)
Definition videos : list value :=
  [ VObj {[ "id" := VNum (Num 1); "title" := VStr "a" ]};
    VObj {[ "id" := VNum (Num 2); "title" := VStr "b" ]};
    VObj {[ "id" := VNum (Num 3); "title" := VStr "c" ]} ].

Definition healthy : state :=
  State true (λ _ _, false) {[ "videos" := videos ]}.

(** The same store with every pipeline raising, ... *)
Definition broken : state :=
  State true (λ _ q, match q with Mongo.aggregate _ => true | _ => false end)
        {[ "videos" := videos ]}.

(** ... with every request raising, ... *)
Definition failing : state :=
  State true (λ _ _, true) {[ "videos" := videos ]}.

(** ... with the update of document 2 raising, ... *)
Definition stubborn : state :=
  State true (λ _ q, match q with
                     | Mongo.update (VObj sel) _ =>
                         match sel !! "id" with
                         | Some (VNum (Num 2)) => true
                         | _ => false
                         end
                     | _ => false
                     end)
        {[ "videos" := videos ]}.

(** ... and out of reach. *)
Definition offline : state :=
  State false (λ _ _, false) {[ "videos" := videos ]}.

(** *** The same store behind a driver that runs pipelines *)

(** [aggregate] of this driver reads [$out] of the last stage before it
    hands back a cursor, as the MongoDB driver does, so that a last stage
    which is [undefined] or [null] makes it throw.  The stages the module
    builds are run as the server runs them: [$match] filters; [$group] on
    [{_id: key, count: {$sum: 1}}] makes one bucket for each value of the
    key among the documents, and so none when there are no documents;
    [$sort] by [{count: -1}] puts the larger counts first.  A key is a
    constant, a field reference ["$field"] (a missing field counting as
    [null]) or an object of these; anything else is refused. *)

Definition reference (doc e : value) : option value :=
  match e with
  | VStr s =>
      Some (if String.prefix "$" s
            then default VNull
                   (own_props doc !! String.substring 1 (String.length s - 1) s)
            else e)
  | VObj _ | VArr _ => None
  | _ => Some e
  end.

Definition key_of (expr doc : value) : option value :=
  match expr with
  | VObj m =>
      (λ l, VObj (list_to_map l)) <$>
        mapM (λ kv, (λ v, (kv.1, v)) <$> reference doc kv.2) (map_to_list m)
  | _ => reference doc expr
  end.

Definition same_key (a b : value) : bool :=
  match a, b with
  | VObj m1, VObj m2 =>
      bool_decide (dom m1 = dom m2) &&
      forallb (λ kv, match m2 !! kv.1 with
                     | Some v => same kv.2 v
                     | None => false
                     end) (map_to_list m1)
  | _, _ => same a b
  end.

Fixpoint tally (key : value) (buckets : list (value * nat)) : list (value * nat) :=
  match buckets with
  | [] => [(key, 1)]
  | (k, n) :: rest =>
      if same_key k key then (k, S n) :: rest else (k, n) :: tally key rest
  end.

Definition bucket (kn : value * nat) : value :=
  VObj {[ "_id" := kn.1; "count" := VNum (Num (Z.of_nat kn.2)) ]}.

Definition count_of (b : value) : Z :=
  match member b "count" with
  | Some (VNum (Num z)) => z
  | _ => 0
  end.

Fixpoint place (b : value) (sorted : list value) : list value :=
  match sorted with
  | [] => [b]
  | x :: rest =>
      if Z.ltb (count_of x) (count_of b) then b :: x :: rest else x :: place b rest
  end.

Definition unrecognized : value := VErr "MongoError" "Unrecognized pipeline stage".

Definition stage (docs : list value) (s : value) : value + list value :=
  match s with
  | VObj m =>
      match m !! "$match", m !! "$group", m !! "$sort" with
      | Some selector, None, None =>
          inr (filter (λ doc, matches selector doc = true) docs)
      | None, Some (VObj g), None =>
          match g !! "_id", g !! "count" with
          | Some expr, Some (VObj sum) =>
              match sum !! "$sum", mapM (key_of expr) docs with
              | Some (VNum (Num 1)), Some keys =>
                  inr (bucket <$> foldl (λ buckets key, tally key buckets) [] keys)
              | _, _ => inl unrecognized
              end
          | _, _ => inl unrecognized
          end
      | None, None, Some (VObj order) =>
          match order !! "count" with
          | Some (VNum (Num (-1))) => inr (foldr place [] docs)
          | _ => inl unrecognized
          end
      | _, _, _ => inl unrecognized
      end
  | _ => inl unrecognized
  end.

Definition stages (pipeline : list value) (docs : list value) : value + list value :=
  foldl (λ sofar s, match sofar with
                    | inl e => inl e
                    | inr docs => stage docs s
                    end) (inr docs) pipeline.

(** Whether reading [$out] of the last stage throws. *)
Definition no_last_stage (q : Mongo.request) : option value :=
  match q with
  | Mongo.aggregate pipeline =>
      match last pipeline with
      | Some VUndefined => Some VUndefined
      | Some VNull => Some VNull
      | _ => None
      end
  | _ => None
  end.

Definition run_pipelines (cName : string) (q : Mongo.request) (st : state)
  : (value + value) * state :=
  match q with
  | Mongo.aggregate pipeline =>
      match no_last_stage q with
      | Some nothing => (inr (TypeError v8 nothing "$out"), st)
      | None =>
          if raises st cName q then (inr failure, st)
          else
            match stages pipeline (documents st cName) with
            | inl e => (inr e, st)
            | inr docs => (inl (VArr docs), st)
            end
      end
  | _ => run cName q st
  end.

Definition pipelines : Mongo.Driver := {|
  Mongo.Store := state;
  Mongo.engine := v8;
  Mongo.connectAsync := λ st,
    if online st then None else Some (VErr "MongoError" "connect ECONNREFUSED");
  Mongo.execute := run_pipelines;
  Mongo.throws := λ _ q _, bool_decide (is_Some (no_last_stage q))
|}.

Definition boot_pipelines (st : state) : world pipelines :=
  initial (D:=pipelines) st.

End Sim.


(** ** Counting what a call may do *)

(** The exported functions that have no [reportAlarm] in their body. *)
Definition silent (i : invocation) : bool :=
  match i with
  | call_readLimit _ _ _ _ _
  | call_countByDay _ _ _ _
  | call_countByObject _ _
  | call_lookup _ _ _ => false
  | _ => true
  end.

(** The number of [Promise.using] a call can get to: one for each element
    of the batch of [updateMany], one for every other function. *)
Definition scopes_at_most (i : invocation) : nat :=
  match i with
  | call_updateMany _ elist => length elist
  | _ => 1
  end.

(** From [w] to [w'] by at most [n] scopes, each with one request, and at
    most [a] alarms. *)
Definition footprint {D} (n a : nat) (w w' : world D) : Prop :=
  ∃ evs, journal w' = journal w ++ evs ∧
         length (requests evs) = length (acquired evs) ∧
         length (acquired evs) ≤ n ∧
         length (alarms evs) ≤ a.

(** A stretch of journal in which every handle, between its acquisition
    and its release, is used for exactly one call on the driver, followed
    at most by alarms; outside are only refusals and alarms. *)
Inductive one_call_each : nat → list event → nat → Prop :=
| one_call_done n : one_call_each n [] n
| one_call_between n e evs m :
    between e → one_call_each n evs m → one_call_each n (e :: evs) m
| one_call_scope n cName q reported evs m :
    Forall (λ e, ∃ r, e = Alarm r) reported →
    one_call_each (S n) evs m →
    one_call_each n (Acquire n :: Call n cName q :: reported ++ Release n :: evs) m.

(** From [w] to [w'] by at most [n] such scopes. *)
Definition tidy {D} (n : nat) (w w' : world D) : Prop :=
  ∃ evs, journal w' = journal w ++ evs ∧
         one_call_each (issued w) evs (issued w') ∧
         issued w' ≤ issued w + n.

(** ** lib/supporters *)

(** What [lib/supporters.js] asks of [lib/mongo3.js], which is not among the
    sources.  Nothing is assumed about it: connecting, each of the three
    functions and closing the client may answer or raise, and leave the
    store as they see fit.  Inside an [async] function a raise and a
    rejected promise are the same thing to [await]. *)
Module mongo3.

Inductive request :=
| readOne (collection selector : value)
| updateOne (collection selector updated : value)
| deleteMany (collection selector : value).

Record Api := {
  Store : Type;
  engine : Engine;
  clientConnect : value → Store → option value * Store;   (* [Some]: it raised *)
  execute : request → Store → (value + value) * Store;    (* [inr]: it raised *)
  close : Store → option value * Store                    (* [Some]: it raised *)
}.

(** What a function did with its client. *)
Inductive step :=
| Opened                      (* [clientConnect] gave a client *)
| Asked (q : request)         (* a call with that client *)
| Close.                      (* [mongoc.close()] was called *)

End mongo3.

(** [!value] is true of these. *)
Definition falsy (v : value) : bool :=
  match v with
  | VUndefined | VNull | VBool false | VNum NaN | VNum (Num 0) | VStr "" => true
  | _ => false
  end.

Module supporters.

Section Functions.

Context (M : mongo3.Api).

(** [nconf.get('schema')], the same throughout a call, and the [==] of the
    engine, which the module applies to [update.publicKey] and [publicKey];
    nothing is assumed about either. *)
Context (schema : value) (loosely_equal : value → value → bool).

Record client_world := ClientWorld {
  client_store : mongo3.Store M;
  client_log : list mongo3.step       (* oldest first *)
}.

(** An [async] function body: it ends with a value or with what it threw. *)
Definition async (A : Type) : Type := client_world → (A + value) * client_world.

#[local] Instance async_ret : MRet async := λ A a w, (inl a, w).

#[local] Instance async_bind : MBind async := λ A B k m w,
  match m w with
  | (inl a, w') => k a w'
  | (inr e, w') => (inr e, w')
  end.

Definition throw_ {A} (e : value) : async A := λ w, (inr e, w).

(** [await mongo3.clientConnect(options)] *)
Definition clientConnect (options : value) : async unit := λ w,
  match mongo3.clientConnect M options (client_store w) with
  | (Some e, st) => (inr e, ClientWorld st (client_log w))
  | (None, st) => (inl (), ClientWorld st (client_log w ++ [mongo3.Opened]))
  end.

(** [await mongo3.readOne(mongoc, ...)] and its two siblings *)
Definition ask (q : mongo3.request) : async value := λ w,
  let '(r, st) := mongo3.execute M q (client_store w) in
  (r, ClientWorld st (client_log w ++ [mongo3.Asked q])).

(** [await mongoc.close()] *)
Definition close : async unit := λ w,
  match mongo3.close M (client_store w) with
  | (Some e, st) => (inr e, ClientWorld st (client_log w ++ [mongo3.Close]))
  | (None, st) => (inl (), ClientWorld st (client_log w ++ [mongo3.Close]))
  end.

(** [object.key], throwing on [undefined] and [null] *)
Definition get_member (object : value) (key : string) : async value :=
  match member object key with
  | Some v => mret v
  | None => throw_ (TypeError (mongo3.engine M) object key)
  end.

Definition update (publicKey update : value) : async value :=
  _ ← clientConnect (VObj {[ "concurrency" := VNum (Num 1) ]});
  collection ← get_member schema "supporters";
  supporter ← ask (mongo3.readOne collection (VObj {[ "publicKey" := publicKey ]}));
  if falsy supporter
  then throw_ (Error "publicKey do not match any user")
  else
    key ← get_member update "publicKey";
    if negb (loosely_equal key publicKey)
    then throw_ (Error "publicKey can't be updarted")
    else
      collection ← get_member schema "supporters";
      newone ← ask (mongo3.updateOne collection
                      (VObj {[ "publicKey" := publicKey ]}) update);
      _ ← close;
      mret newone.

Definition get (publicKey : value) : async value :=
  _ ← clientConnect (VObj {[ "concurrency" := VNum (Num 1) ]});
  collection ← get_member schema "supporters";
  supporter ← ask (mongo3.readOne collection (VObj {[ "publicKey" := publicKey ]}));
  if falsy supporter
  then throw_ (Error "publicKey do not match any user")
  else
    _ ← close;
    mret supporter.

Definition remove (publicKey : value) : async value :=
  _ ← clientConnect (VObj {[ "concurrency" := VNum (Num 1) ]});
  collection ← get_member schema "supporters";
  dunno ← ask (mongo3.deleteMany collection (VObj {[ "publicKey" := publicKey ]}));
  _ ← close;
  mret dunno.

End Functions.

Arguments ClientWorld {M} _ _.
Arguments client_store {M} _.
Arguments client_log {M} _.
Arguments update {M} _ _ _ _ _.
Arguments get {M} _ _ _.
Arguments remove {M} _ _ _.

End supporters.

(** The clients opened and the calls of [close] in a log. *)
Definition opened (log : list mongo3.step) : nat :=
  length (omap (λ s, match s with mongo3.Opened => Some () | _ => None end) log).

Definition closed (log : list mongo3.step) : nat :=
  length (omap (λ s, match s with mongo3.Close => Some () | _ => None end) log).

(** The requests made with a client. *)
Definition asked (log : list mongo3.step) : list mongo3.request :=
  omap (λ s, match s with mongo3.Asked q => Some q | _ => None end) log.

(** The requests that only read. *)
Definition reads_only (q : mongo3.request) : bool :=
  match q with
  | mongo3.readOne _ _ => true
  | _ => false
  end.

(** What a function of the module did to the log when it ended with [r]:
    fulfilled, it opened one client and closed it; rejected, it did not
    close what it opened, unless it was [close] itself that raised. *)
Definition kept_or_leaked {M : mongo3.Api} (r : value + value)
    (w w' : supporters.client_world M) : Prop :=
  ∃ steps,
    supporters.client_log w' = supporters.client_log w ++ steps ∧
    opened steps ≤ 1 ∧
    closed steps ≤ opened steps ∧
    match r with
    | inl _ => opened steps = 1 ∧ closed steps = 1
    | inr error =>
        closed steps = 0 ∨
        ∃ st, mongo3.close M st = (Some error, supporters.client_store w')
    end.

(** A [mongo3] over the simulated store of above: [readOne] answers with
    the first match or [null], [updateOne] replaces what matches,
    [deleteMany] drops it; the store can be out of reach and chosen
    requests can raise as before. *)
Module Sim3.

Definition as_mongo (q : mongo3.request) : option (string * Mongo.request) :=
  match q with
  | mongo3.readOne (VStr c) selector =>
      Some (c, Mongo.toArray (Mongo.Cursor selector None None None))
  | mongo3.updateOne (VStr c) selector updated =>
      Some (c, Mongo.updateOne selector updated None)
  | mongo3.deleteMany (VStr c) selector => Some (c, Mongo.remove selector)
  | _ => None
  end.

Definition run (q : mongo3.request) (st : Sim.state) : (value + value) * Sim.state :=
  match as_mongo q with
  | None => (inr (VErr "MongoError" "collection name must be a String"), st)
  | Some (c, request) =>
      match q, Sim.run c request st with
      | mongo3.readOne _ _, (inl (VArr (doc :: _)), st') => (inl doc, st')
      | mongo3.readOne _ _, (inl _, st') => (inl VNull, st')
      | _, answer => answer
      end
  end.

Definition api : mongo3.Api := {|
  mongo3.Store := Sim.state;
  mongo3.engine := Sim.v8;
  mongo3.clientConnect := λ _ st,
    (if Sim.online st then None else Some (VErr "MongoError" "connect ECONNREFUSED"),
     st);
  mongo3.execute := run;
  mongo3.close := λ st, (None, st)
|}.

Definition boot (st : Sim.state) : supporters.client_world api :=
  supporters.ClientWorld (M:=api) st [].

(** The schema of the configuration, and [==] where no conversion takes
    place: on two strings. *)
Definition schema : value := VObj {[ "supporters" := VStr "supporters" ]}.

Definition same_string (a b : value) : bool :=
  match a, b with
  | VStr x, VStr y => String.eqb x y
  | _, _ => false
  end.

Definition alice : value :=
  VObj {[ "publicKey" := VStr "alice"; "tag" := VStr "old" ]}.

Definition people : Sim.state :=
  Sim.State true (λ _ _, false) {[ "supporters" := [alice] ]}.

End Sim3.

(** ** Properties *)

Section Properties.

Context {D : Mongo.Driver}.

Implicit Types (w : world D) (cName : string) (j : list event).

(** *** Journals *)

Lemma acquired_app j1 j2 : acquired (j1 ++ j2) = acquired j1 ++ acquired j2.
Proof. apply omap_app. Qed.

Lemma released_app j1 j2 : released (j1 ++ j2) = released j1 ++ released j2.
Proof. apply omap_app. Qed.

Lemma requests_app j1 j2 : requests (j1 ++ j2) = requests j1 ++ requests j2.
Proof. apply omap_app. Qed.

Lemma alarms_app j1 j2 : alarms (j1 ++ j2) = alarms j1 ++ alarms j2.
Proof. apply omap_app. Qed.

Ltac read_journal :=
  simpl; rewrite ?acquired_app, ?released_app, ?requests_app, ?alarms_app;
  simpl; rewrite ?app_nil_r.

(** *** The guards *)

Lemma keys_nil v : lodash.keys v = [] ↔ own_props v = ∅.
Proof.
  unfold lodash.keys. rewrite <- map_to_list_empty_iff.
  split; [apply fmap_nil_inv | by intros ->].
Qed.

Lemma no_keys_size v :
  Nat.eqb (lodash.size (lodash.keys v)) 0 = true ↔ own_props v = ∅.
Proof.
  rewrite Nat.eqb_eq, <- keys_nil. unfold lodash.size.
  split; [apply nil_length_inv | by intros ->].
Qed.

Lemma some_keys_size v :
  Nat.eqb (lodash.size (lodash.keys v)) 0 = false ↔ own_props v ≠ ∅.
Proof.
  rewrite <- not_true_iff_false. by rewrite no_keys_size.
Qed.

Lemma remove_refuses cName selector w :
  own_props selector = ∅ →
  remove cName selector w = (Throws (Error "Nope, you can't delete {} "), w).
Proof.
  intros Hempty. unfold remove.
  by rewrite (proj2 (no_keys_size selector) Hempty).
Qed.

Lemma remove_passes cName selector w :
  own_props selector ≠ ∅ →
  remove cName selector w =
    returns (Promise_using (λ db, call db cName (Mongo.remove selector))) w.
Proof.
  intros Hsome. unfold remove.
  by rewrite (proj2 (some_keys_size selector) Hsome).
Qed.

(** C3.  [remove] with the selector [{}] throws its precondition error and
    leaves the world as it was: no connection attempt, no request, no change
    of the store.  With a selector that has at least one property it does
    not throw but asks for a connection: when that is refused, the refusal
    is all that happened; when it is granted, exactly the driver's [remove]
    with that selector is issued on that collection, the store is what the
    delete leaves behind, and the promise settles as the delete did. *)
Theorem remove_empty_selector_guard cName selector w :
  remove cName (VObj ∅) w = (Throws (Error "Nope, you can't delete {} "), w) ∧
  (own_props selector ≠ ∅ →
     (∀ reason, Mongo.connectAsync D (store w) = Some reason →
        remove cName selector w =
          (Settles (Rejected reason),
           World (store w) (issued w) (journal w ++ [Refused reason]))) ∧
     (Mongo.connectAsync D (store w) = None →
        ∀ r st, Mongo.execute D cName (Mongo.remove selector) (store w) = (r, st) →
        remove cName selector w =
          (Settles (settles r),
           World st (S (issued w))
             (journal w ++ [Acquire (issued w);
                            Call (issued w) cName (Mongo.remove selector);
                            Release (issued w)])))).
Proof.
  split; [by apply remove_refuses|].
  intros Hsome. rewrite (remove_passes _ _ _ Hsome).
  unfold returns, Promise_using, call, record. split.
  - intros reason ->. done.
  - intros Hc r st He. rewrite Hc. simpl. rewrite He. simpl.
    by rewrite <- !app_assoc.
Qed.

(** C10.  [remove] throws its precondition error, with the world untouched,
    for every selector without own enumerable properties: the empty object,
    and also [undefined] (an absent argument) and [null]. *)
Theorem remove_rejects_keyless_selectors cName w :
  (∀ selector, lodash.keys selector = [] →
     remove cName selector w = (Throws (Error "Nope, you can't delete {} "), w)) ∧
  remove cName (VObj ∅) w = (Throws (Error "Nope, you can't delete {} "), w) ∧
  remove cName VUndefined w = (Throws (Error "Nope, you can't delete {} "), w) ∧
  remove cName VNull w = (Throws (Error "Nope, you can't delete {} "), w).
Proof.
  split_and!; [|by apply remove_refuses..].
  intros selector Hkeys. by apply remove_refuses, keys_nil.
Qed.

(** C4.  [countByDay] with a [timeVarName] that does not start with ['$']
    throws its precondition error at once, the world untouched; with one
    that does, the call never throws: it returns a promise. *)
Theorem countByDay_time_field_guard cName timeVarName filter aggext w :
  (lodash.startsWith timeVarName "$" = false →
     countByDay cName timeVarName filter aggext w =
       (Throws (Error "developer please: mongoVar wants '$'"), w)) ∧
  (lodash.startsWith timeVarName "$" = true →
     ∃ s w', countByDay cName timeVarName filter aggext w = (Settles s, w')).
Proof.
  unfold countByDay. split; intros ->; simpl; [done|].
  unfold returns. destruct (tap _ w) as [s w']. by exists s, w'.
Qed.

(** *** Connection scopes *)

Lemma using_refused (handler : nat → promise D) w reason :
  Mongo.connectAsync D (store w) = Some reason →
  Promise_using handler w =
    (Rejected reason, World (store w) (issued w) (journal w ++ [Refused reason])).
Proof. intros Hc. unfold Promise_using. by rewrite Hc. Qed.

(** A scope around one propagating call. *)
Lemma using_call cName q w r st :
  Mongo.connectAsync D (store w) = None →
  Mongo.execute D cName q (store w) = (r, st) →
  Promise_using (λ db, call db cName q) w =
    (settles r,
     World st (S (issued w))
       (journal w ++ [Acquire (issued w); Call (issued w) cName q;
                      Release (issued w)])).
Proof.
  intros Hc He. unfold Promise_using, call, record. rewrite Hc. simpl.
  rewrite He. simpl. rewrite <- !app_assoc. by destruct r.
Qed.

(** A scope around one call with a [.catch] on its promise that turns a
    rejection into an alarm and an empty array: what is thrown before the
    promise exists goes past it. *)
Lemma using_contained_call cName q w r st (report : value → value) :
  Mongo.connectAsync D (store w) = None →
  Mongo.execute D cName q (store w) = (r, st) →
  Promise_using (λ db,
      caught_call db cName q
        (λ error w', (Fulfilled (VArr []), reportAlarm (report error) w'))) w =
    match r with
    | inl v =>
        (Fulfilled v,
         World st (S (issued w))
           (journal w ++ [Acquire (issued w); Call (issued w) cName q;
                          Release (issued w)]))
    | inr error =>
        if Mongo.throws D cName q (store w)
        then
          (Rejected error,
           World st (S (issued w))
             (journal w ++ [Acquire (issued w); Call (issued w) cName q;
                            Release (issued w)]))
        else
          (Fulfilled (VArr []),
           World st (S (issued w))
             (journal w ++ [Acquire (issued w); Call (issued w) cName q;
                            Alarm (report error); Release (issued w)]))
    end.
Proof.
  intros Hc He. unfold Promise_using, caught_call, catch, call, reportAlarm, record.
  rewrite Hc. simpl.
  destruct (Mongo.throws D cName q (store w)); rewrite He;
    destruct r; simpl; by rewrite <- !app_assoc.
Qed.

(** *** Containment *)

(** C1.  Once connected, when the pipeline of [countByDay], [countByObject]
    or [lookup] fails with [error]: if it is the promise of [.toArray()]
    that is rejected, the call does not throw and its promise is fulfilled
    with the empty array, and between acquiring and releasing the handle
    the journal shows the one pipeline and one alarm record, whose caller
    is the name of the operation, whose cause is [error] and whose info
    holds the collection name and the arguments under their parameter
    names, the grouping object of [countByObject] as it is after
    defaulting ([{}] when the caller passed none); if it is the driver that
    throws before there is a promise, the promise of the call is rejected
    with [error] and no alarm is reported. *)
Theorem aggregations_degrade_to_empty cName w error st :
  Mongo.connectAsync D (store w) = None →
  let degrades :=
    λ (op : operation D) (q : Mongo.request) (caller : string) (info : value),
      Mongo.execute D cName q (store w) = (inr error, st) →
      (Mongo.throws D cName q (store w) = false →
         op w =
           (Settles (Fulfilled (VArr [])),
            World st (S (issued w))
              (journal w ++
                 [Acquire (issued w); Call (issued w) cName q;
                  Alarm (alarm_record caller error info);
                  Release (issued w)]))) ∧
      (Mongo.throws D cName q (store w) = true →
         op w =
           (Settles (Rejected error),
            World st (S (issued w))
              (journal w ++
                 [Acquire (issued w); Call (issued w) cName q;
                  Release (issued w)]))) in
  (∀ timeVarName filter aggext,
     lodash.startsWith timeVarName "$" = true →
     degrades (countByDay cName timeVarName filter aggext)
       (Mongo.aggregate (totalQ timeVarName filter aggext))
       "countByDay"
       (VObj {[ "cName" := VStr cName;
                "timeVarName" := timeVarName;
                "filter" := filter;
                "aggext" := aggext ]})) ∧
  (∀ idobj,
     degrades (countByObject cName idobj)
       (Mongo.aggregate
          [ VObj {[ "$group" :=
              VObj {[ "_id" := if lodash.isUndefined idobj then VObj ∅ else idobj;
                      "count" := VObj {[ "$sum" := VNum (Num 1) ]} ]} ]};
            VObj {[ "$sort" := VObj {[ "count" := VNum (Num (-1)) ]} ]} ])
       "countByObject"
       (VObj {[ "cName" := VStr cName;
                "idobj" := if lodash.isUndefined idobj then VObj ∅ else idobj ]})) ∧
  (∀ query sequence,
     degrades (lookup cName query sequence)
       (Mongo.aggregate [query; sequence])
       "lookup"
       (VObj {[ "cName" := VStr cName;
                "query" := query;
                "sequence" := sequence ]})).
Proof.
  intros Hc degrades. unfold degrades. split_and!.
  - intros timeVarName filter aggext Hdollar He.
    unfold countByDay, returns, tap. rewrite Hdollar. simpl.
    rewrite (using_contained_call _ _ _ _ _ (λ error, VObj _) Hc He).
    by split; intros ->.
  - intros idobj He. unfold countByObject, returns.
    rewrite (using_contained_call _ _ _ _ _ (λ error, VObj _) Hc He).
    by split; intros ->.
  - intros query sequence He. unfold lookup, returns.
    rewrite (using_contained_call _ _ _ _ _ (λ error, VObj _) Hc He).
    by split; intros ->.
Qed.

(** *** The pipelines *)

Lemma has_keys v :
  Nat.ltb 0 (lodash.size (lodash.keys v)) = negb (bool_decide (own_props v = ∅)).
Proof.
  case_bool_decide as Hprops; simpl.
  - apply Nat.ltb_ge. apply keys_nil in Hprops. rewrite Hprops. done.
  - apply Nat.ltb_lt. apply some_keys_size, Nat.eqb_neq in Hprops. lia.
Qed.

Lemma returns_world (p : promise D) w : (returns p w).2 = (p w).2.
Proof. unfold returns. by destruct (p w). Qed.

Lemma returns_completion (p : promise D) w : (returns p w).1 = Settles (p w).1.
Proof. unfold returns. by destruct (p w). Qed.

Lemma requests_of_caught_call cName q w (handler : value → promise D) :
  Mongo.connectAsync D (store w) = None →
  (∀ e w', requests (journal (handler e w').2) = requests (journal w')) →
  requests (journal (Promise_using (λ db, caught_call db cName q handler) w).2)
  = requests (journal w) ++ [(cName, q)].
Proof.
  intros Hc Hhandler. unfold Promise_using, caught_call, catch, call, record.
  rewrite Hc. simpl.
  destruct (Mongo.throws D cName q (store w));
    destruct (Mongo.execute D cName q (store w)) as [[v|e] st]; simpl;
    try by read_journal.
  destruct (handler e _) as [s w'] eqn:Hh. read_journal.
  change w' with (s, w').2. rewrite <- Hh, Hhandler. by read_journal.
Qed.

Lemma requests_of_alarm (r : value) w :
  requests (journal (reportAlarm r w)) = requests (journal w).
Proof. unfold reportAlarm, record. simpl. by read_journal. Qed.

Lemma queryId_cases timeVarName aggext :
  queryId timeVarName aggext =
    VObj (if lodash.isObject aggext && negb (bool_decide (own_props aggext = ∅))
          then own_props aggext ∪
                 {[ "year" := VObj {[ "$year" := timeVarName ]};
                    "month" := VObj {[ "$month" := timeVarName ]};
                    "day" := VObj {[ "$dayOfMonth" := timeVarName ]} ]}
          else {[ "year" := VObj {[ "$year" := timeVarName ]};
                  "month" := VObj {[ "$month" := timeVarName ]};
                  "day" := VObj {[ "$dayOfMonth" := timeVarName ]} ]}).
Proof.
  unfold queryId. rewrite has_keys.
  by destruct (lodash.isObject aggext && negb (bool_decide (own_props aggext = ∅))).
Qed.

(** C6.  With a [timeVarName] that starts with ['$'] and a connection,
    [countByDay] sends the driver exactly one request: the pipeline
    [[{$match: filter}, {$group: {_id: K, count: {$sum: 1}}}]] on the
    collection.  [K] maps [year], [month] and [day] to [$year], [$month] and
    [$dayOfMonth] of [timeVarName]; the properties of [aggext] are laid over
    it when [aggext] is an object with at least one property, and nothing is
    added otherwise. *)
Theorem countByDay_issues_match_and_group cName timeVarName filter aggext w :
  lodash.startsWith timeVarName "$" = true →
  Mongo.connectAsync D (store w) = None →
  ∃ K : gmap string value,
    requests (journal (countByDay cName timeVarName filter aggext w).2) =
      requests (journal w) ++
        [(cName,
          Mongo.aggregate
            [ VObj {[ "$match" := filter ]};
              VObj {[ "$group" :=
                VObj {[ "_id" := VObj K;
                        "count" := VObj {[ "$sum" := VNum (Num 1) ]} ]} ]} ])] ∧
    (lodash.isObject aggext = true → own_props aggext ≠ ∅ →
       K = own_props aggext ∪
             {[ "year" := VObj {[ "$year" := timeVarName ]};
                "month" := VObj {[ "$month" := timeVarName ]};
                "day" := VObj {[ "$dayOfMonth" := timeVarName ]} ]}) ∧
    (lodash.isObject aggext = false ∨ own_props aggext = ∅ →
       K = {[ "year" := VObj {[ "$year" := timeVarName ]};
              "month" := VObj {[ "$month" := timeVarName ]};
              "day" := VObj {[ "$dayOfMonth" := timeVarName ]} ]}).
Proof.
  intros Hdollar Hc.
  eexists. split_and!.
  - unfold countByDay, tap. rewrite Hdollar. simpl.
    rewrite returns_world, requests_of_caught_call;
      [|done|intros; apply requests_of_alarm].
    unfold totalQ. rewrite queryId_cases. done.
  - intros -> Hsome. simpl. by rewrite bool_decide_eq_false_2.
  - intros [-> | Hnone]; [done|].
    rewrite (bool_decide_eq_true_2 _ Hnone). by rewrite andb_false_r.
Qed.


(** *** Propagation *)

Lemma alarms_of_call cName q w :
  alarms (journal (Promise_using (λ db, call db cName q) w).2) = alarms (journal w).
Proof.
  unfold Promise_using, call, record.
  destruct (Mongo.connectAsync D (store w)); [by read_journal|]. simpl.
  destruct (Mongo.execute D cName q (store w)) as [r st]. by read_journal.
Qed.

(** C9.  When the store raises [error] on the count of [countByMatch] or on
    the pipeline of [aggregate], the promise of the call is rejected with
    that very [error]; and whatever the connection and the store do, these
    two operations add no record to what the alarm sink has received. *)
Theorem countByMatch_and_aggregate_propagate cName w :
  (∀ selector error st,
     Mongo.connectAsync D (store w) = None →
     Mongo.execute D cName (Mongo.count selector) (store w) = (inr error, st) →
     (countByMatch cName selector w).1 = Settles (Rejected error)) ∧
  (∀ match_ group error st,
     Mongo.connectAsync D (store w) = None →
     Mongo.execute D cName
       (Mongo.aggregate [ VObj {[ "$match" := match_ ]};
                          VObj {[ "$group" := group ]} ]) (store w)
       = (inr error, st) →
     (aggregate cName match_ group w).1 = Settles (Rejected error)) ∧
  (∀ selector,
     alarms (journal (countByMatch cName selector w).2) = alarms (journal w)) ∧
  (∀ match_ group,
     alarms (journal (aggregate cName match_ group w).2) = alarms (journal w)).
Proof.
  split_and!.
  - intros selector error st Hc He. unfold countByMatch.
    by rewrite returns_completion, (using_call _ _ _ _ _ Hc He).
  - intros match_ group error st Hc He. unfold aggregate, tap.
    by rewrite returns_completion, (using_call _ _ _ _ _ Hc He).
  - intros selector. unfold countByMatch.
    by rewrite returns_world, alarms_of_call.
  - intros match_ group. unfold aggregate, tap.
    by rewrite returns_world, alarms_of_call.
Qed.

(** *** Paging *)

(** [readLimit] once connected: the one cursor it runs, and what becomes of
    the answer. *)
Lemma readLimit_connected cName selector sorter limitN past w r st :
  lodash.isNaN past = false →
  Mongo.connectAsync D (store w) = None →
  Mongo.execute D cName
    (Mongo.toArray (Mongo.Cursor selector (Some sorter) (Some past) (Some limitN)))
    (store w) = (r, st) →
  readLimit cName selector sorter limitN past w =
    match r with
    | inl v =>
        (Settles (Fulfilled v),
         World st (S (issued w))
           (journal w ++
              [Acquire (issued w);
               Call (issued w) cName
                 (Mongo.toArray
                    (Mongo.Cursor selector (Some sorter) (Some past) (Some limitN)));
               Release (issued w)]))
    | inr errstr =>
        (Settles (Fulfilled (VArr [])),
         World st (S (issued w))
           (journal w ++
              [Acquire (issued w);
               Call (issued w) cName
                 (Mongo.toArray
                    (Mongo.Cursor selector (Some sorter) (Some past) (Some limitN)));
               Release (issued w);
               Alarm (alarm_record "readLimit" errstr
                        (VObj {[ "selector" := selector;
                                 "limit" := limitN;
                                 "sorter" := sorter ]}))]))
    end.
Proof.
  intros Hnan Hc He. unfold readLimit, returns, catch, tap. rewrite Hnan.
  rewrite (using_call _ _ _ _ _ Hc He).
  destruct r; simpl; [done|].
  unfold reportAlarm, record. simpl. by rewrite <- !app_assoc.
Qed.

Lemma readLimit_requests cName selector sorter limitN past w :
  lodash.isNaN past = false →
  Mongo.connectAsync D (store w) = None →
  requests (journal (readLimit cName selector sorter limitN past w).2) =
    requests (journal w) ++
      [(cName,
        Mongo.toArray
          (Mongo.Cursor selector (Some sorter) (Some past) (Some limitN)))].
Proof.
  intros Hnan Hc.
  destruct (Mongo.execute D cName
    (Mongo.toArray (Mongo.Cursor selector (Some sorter) (Some past) (Some limitN)))
    (store w)) as [r st] eqn:He.
  rewrite (readLimit_connected _ _ _ _ _ _ _ _ Hnan Hc He).
  destruct r; by read_journal.
Qed.

(** Whatever the driver, a skip count that is neither [NaN] nor 0 does not
    make the call that a skip count of 0 makes. *)
Lemma readLimit_keeps_other_skips cName selector sorter limitN past w :
  lodash.isNaN past = false →
  past ≠ VNum (Num 0) →
  Mongo.connectAsync D (store w) = None →
  readLimit cName selector sorter limitN past w
  ≠ readLimit cName selector sorter limitN (VNum (Num 0)) w.
Proof.
  intros Hnan Hpast Hc Hsame.
  apply (f_equal (λ r, requests (journal r.2))) in Hsame. simpl in Hsame.
  rewrite !readLimit_requests in Hsame by done.
  apply app_inv_head in Hsame. by inversion Hsame.
Qed.

(** C5, for the skip count [NaN].  A skip count of [NaN] is a skip count of
    0.  Any other skip count, number or not, reaches the cursor as the caller
    gave it, with selector, sorter and limit: once connected, the call sends
    exactly one request,
    [find(selector).sort(sorter).skip(past).limit(limitN).toArray()], and the
    documents the store answers with are what the promise is fulfilled
    with, as they are.  So on a store that honours skip and limit, a skip
    count [n] and a limit [l > 0] produce the documents after the first [n]
    in sort order, at most [l] of them. *)
Theorem readLimit_skips_past cName selector sorter limitN w :
  readLimit cName selector sorter limitN (VNum NaN) w =
    readLimit cName selector sorter limitN (VNum (Num 0)) w ∧
  (∀ past,
     lodash.isNaN past = false →
     Mongo.connectAsync D (store w) = None →
     requests (journal (readLimit cName selector sorter limitN past w).2) =
       requests (journal w) ++
         [(cName,
           Mongo.toArray
             (Mongo.Cursor selector (Some sorter) (Some past) (Some limitN)))] ∧
     ∀ docs st,
       Mongo.execute D cName
         (Mongo.toArray
            (Mongo.Cursor selector (Some sorter) (Some past) (Some limitN)))
         (store w) = (inl docs, st) →
       (readLimit cName selector sorter limitN past w).1
       = Settles (Fulfilled docs) ∧
       alarms (journal (readLimit cName selector sorter limitN past w).2)
       = alarms (journal w)) ∧
  (∀ sorted (n l : nat),
     honours_skip_and_limit (store w) sorted →
     Mongo.connectAsync D (store w) = None →
     limitN = VNum (Num (Z.of_nat l)) →
     0 < l →
     (readLimit cName selector sorter limitN (VNum (Num (Z.of_nat n))) w).1 =
       Settles (Fulfilled (VArr (take l (drop n (sorted cName selector sorter))))) ∧
     length (take l (drop n (sorted cName selector sorter))) ≤ l).
Proof.
  split_and!.
  - done.
  - intros past Hnan Hc. split; [by apply readLimit_requests|].
    intros docs st He.
    rewrite (readLimit_connected _ _ _ _ _ _ _ _ Hnan Hc He).
    split; [done|by read_journal].
  - intros sorted n l Hstore Hc -> Hl. split.
    + by rewrite (readLimit_connected cName selector sorter _ (VNum (Num (Z.of_nat n)))
                    w _ _ eq_refl Hc (Hstore cName selector sorter n l Hl)).
    + rewrite length_take. lia.
Qed.

(** *** Batches *)

Lemma check_ids_passes elist :
  check_ids (D:=D) elist = None ↔ Forall (λ e, has_id e = true) elist.
Proof.
  induction elist as [|e rest IH]; simpl; [by split|].
  rewrite Forall_cons, <- IH. unfold has_id.
  destruct (member e "id") as [id|]; [|by split; [|intros [? _]]].
  destruct (lodash.isUndefined id); simpl.
  - by split; [|intros [? _]].
  - by split; [|intros [_ ?]].
Qed.

Lemma check_ids_fails elist e :
  e ∈ elist → has_id e = false → ∃ error, check_ids (D:=D) elist = Some error.
Proof.
  intros Hin Hlacks. destruct (check_ids (D:=D) elist) as [error|] eqn:Hcheck; [by eexists|].
  apply check_ids_passes in Hcheck. rewrite Forall_forall in Hcheck.
  specialize (Hcheck e Hin). congruence.
Qed.

(** The iterator that [updateMany] hands to [Promise.each]. *)
Lemma update_applied cName e w w' :
  applied cName e w w' →
  ∃ v, Promise_using (λ db,
         call db cName
           (Mongo.update (VObj {[ "id" := default VUndefined (member e "id") ]}) e)) w
       = (Fulfilled v, w').
Proof.
  intros (id & v & st & Hid & Hc & He & ->). rewrite Hid. simpl.
  exists v. by rewrite (using_call _ _ _ _ _ Hc He).
Qed.

Lemma update_failed cName e reason w w' :
  failed cName e reason w w' →
  Promise_using (λ db,
    call db cName
      (Mongo.update (VObj {[ "id" := default VUndefined (member e "id") ]}) e)) w
  = (Rejected reason, w').
Proof.
  intros [[Hc ->] | (id & st & Hid & Hc & He & ->)].
  - by apply using_refused.
  - rewrite Hid. simpl. by rewrite (using_call _ _ _ _ _ Hc He).
Qed.

Lemma each_from_applied cName done rest w w1 :
  applied_all cName done w w1 →
  each_from (done ++ rest)
    (λ e, Promise_using (λ db,
       call db cName
         (Mongo.update (VObj {[ "id" := default VUndefined (member e "id") ]}) e))) w
  = each_from rest
      (λ e, Promise_using (λ db,
         call db cName
           (Mongo.update (VObj {[ "id" := default VUndefined (member e "id") ]}) e))) w1.
Proof.
  induction 1 as [|e done w w1 w2 Hstep _ IH]; [done|].
  destruct (update_applied _ _ _ _ Hstep) as [v Hrun].
  simpl. unfold then_ at 1. by rewrite Hrun.
Qed.

(** A validated batch either goes through entirely or stops at one first
    element that fails. *)
Lemma batch_cases cName elist w :
  Forall (λ e, has_id e = true) elist →
  (∃ w', applied_all cName elist w w') ∨
  (∃ done e rest reason w1 w2,
     elist = done ++ e :: rest ∧
     applied_all cName done w w1 ∧
     failed cName e reason w1 w2).
Proof.
  intros Hvalid. revert w.
  induction Hvalid as [|e rest He _ IH]; intros w.
  { left. eexists. constructor. }
  unfold has_id in He. destruct (member e "id") as [id|] eqn:Hid; [|done].
  destruct (Mongo.connectAsync D (store w)) as [reason|] eqn:Hc.
  { right. exists [], e, rest, reason, w. eexists.
    split_and!; [done|constructor|]. left. eauto. }
  destruct (Mongo.execute D cName (Mongo.update (VObj {[ "id" := id ]}) e) (store w))
    as [[v|reason] st] eqn:Hrun.
  - assert (∃ w1, applied cName e w w1) as [w1 Hstep].
    { eexists. exists id, v, st. eauto. }
    destruct (IH w1) as [[w' Hall] | (done & e' & rest' & reason & w2 & w3 & -> & Hall & Hfail)].
    + left. exists w'. by econstructor.
    + right. exists (e :: done), e', rest', reason, w2, w3.
      split_and!; [done| by econstructor | done].
  - right. exists [], e, rest, reason, w. eexists.
    split_and!; [done|constructor|]. right. exists id, st. eauto.
Qed.

(** What a batch that went through left in the journal: one update per
    element, in the order of the list, the identifier as selector. *)
Lemma applied_all_requests cName elist w w' :
  applied_all cName elist w w' →
  requests (journal w') =
    requests (journal w) ++
      ((λ e, (cName,
              Mongo.update (VObj {[ "id" := default VUndefined (member e "id") ]}) e))
         <$> elist).
Proof.
  induction 1 as [|e rest w w1 w2 Hstep _ IH]; simpl; [by rewrite app_nil_r|].
  destruct Hstep as (id & v & st & Hid & _ & _ & ->).
  rewrite IH, Hid. read_journal. by rewrite <- app_assoc.
Qed.

(** C8.  [updateMany] looks at the whole batch first: if some element has
    no [id], the call throws with the world untouched, so no update was
    tried.  A batch in which every element has one is applied element after
    element, each in a scope of its own with [{id: e.id}] as selector: if all
    updates succeed the promise is fulfilled with the batch; if the elements
    of [done] succeed and the next one fails, the promise is rejected with
    that failure, in the world the failure left, where the updates of [done]
    stand and nothing of [rest] was tried. *)
Theorem updateMany_validates_then_updates_in_order cName elist w :
  let upd := λ e, (cName,
                   Mongo.update
                     (VObj {[ "id" := default VUndefined (member e "id") ]}) e) in
  (∀ e, e ∈ elist → has_id e = false →
     ∃ error, updateMany cName elist w = (Throws error, w)) ∧
  (Forall (λ e, has_id e = true) elist →
     (∀ w', applied_all cName elist w w' →
        updateMany cName elist w = (Settles (Fulfilled (VArr elist)), w') ∧
        requests (journal w') = requests (journal w) ++ (upd <$> elist)) ∧
     (∀ done e rest reason w1 w2,
        elist = done ++ e :: rest →
        applied_all cName done w w1 →
        failed cName e reason w1 w2 →
        updateMany cName elist w = (Settles (Rejected reason), w2) ∧
        ∃ last,
          requests (journal w2) = requests (journal w) ++ (upd <$> done) ++ last ∧
          (last = [] ∨ last = [upd e]))).
Proof.
  intros upd. split.
  - intros e Hin Hlacks. destruct (check_ids_fails _ _ Hin Hlacks) as [error Hcheck].
    exists error. unfold updateMany. by rewrite Hcheck.
  - intros Hvalid. apply check_ids_passes in Hvalid.
    unfold updateMany. rewrite Hvalid. split.
    + intros w' Hall. split; [|by apply applied_all_requests].
      unfold returns, Promise_each, then_.
      rewrite <- (app_nil_r elist) at 1.
      by rewrite (each_from_applied _ _ _ _ _ Hall).
    + intros done e rest reason w1 w2 -> Hall Hfail. split.
      * unfold returns, Promise_each, then_.
        rewrite (each_from_applied _ _ _ _ _ Hall). simpl. unfold then_.
        by rewrite (update_failed _ _ _ _ _ Hfail).
      * pose proof (applied_all_requests _ _ _ _ Hall) as Hdone.
        destruct Hfail as [[_ ->] | (id & st & Hid & _ & _ & ->)].
        -- exists []. split; [|by left].
           unfold upd. rewrite app_nil_r, <- Hdone. by read_journal.
        -- exists [upd e]. split; [|by right].
           unfold upd. rewrite app_assoc, <- Hdone, Hid. by read_journal.
Qed.

(** *** Connection handles *)

Lemma within_quiet h held :
  Forall (within h) held → acquired held = [] ∧ released held = [].
Proof.
  induction 1 as [|e held He _ [IHa IHr]]; [done|].
  by destruct e.
Qed.

(** In a stretch of closed scopes the handles released are the handles
    acquired, and these are the handles from [n] up to [m]. *)
Lemma scopes_handles n evs m :
  scopes n evs m →
  released evs = seq n (m - n) ∧ acquired evs = seq n (m - n) ∧ n ≤ m.
Proof.
  induction 1 as [n|n e evs m He _ IH|n held evs m Hheld _ (IHr & IHa & Hle)].
  - by rewrite Nat.sub_diag.
  - by destruct e.
  - destruct (within_quiet _ _ Hheld) as [Ha Hr].
    replace (m - n) with (S (m - S n)) by lia.
    read_journal. rewrite Ha, Hr, IHa, IHr. simpl. split_and!; [done|done|lia].
Qed.

Lemma scopes_app n evs1 m evs2 k :
  scopes n evs1 m → scopes m evs2 k → scopes n (evs1 ++ evs2) k.
Proof.
  intros Hfirst Hsecond.
  induction Hfirst as [n|n e evs m He _ IH|n held evs m Hheld _ IH]; simpl.
  - done.
  - apply scopes_between; [done|by apply IH].
  - rewrite <- app_assoc. simpl. apply scopes_scope; [done|by apply IH].
Qed.

Lemma scoped_refl w : scoped w w.
Proof. exists []. rewrite app_nil_r. split; [done|constructor]. Qed.

Lemma scoped_trans w1 w2 w3 : scoped w1 w2 → scoped w2 w3 → scoped w1 w3.
Proof.
  intros (evs1 & Hj1 & Hs1) (evs2 & Hj2 & Hs2).
  exists (evs1 ++ evs2). rewrite Hj2, Hj1, <- app_assoc.
  split; [done|by eapply scopes_app].
Qed.

Lemma record_scoped e w : between e → scoped w (record e w).
Proof. intros He. exists [e]. split; [done|]. by repeat constructor. Qed.

Lemma inside_trans h w1 w2 w3 : inside h w1 w2 → inside h w2 w3 → inside h w1 w3.
Proof.
  intros (evs1 & Hj1 & Hw1 & Hi1) (evs2 & Hj2 & Hw2 & Hi2).
  exists (evs1 ++ evs2). rewrite Hj2, Hj1, <- app_assoc, Forall_app.
  split_and!; [done..|congruence].
Qed.

Lemma call_inside h cName q w : inside h w (call h cName q w).2.
Proof.
  unfold call. destruct (Mongo.execute D cName q (store w)) as [r st].
  exists [Call h cName q]. split_and!; [done| |done]. by repeat constructor.
Qed.

Lemma reportAlarm_inside h (r : value) w : inside h w (reportAlarm r w).
Proof. exists [Alarm r]. split_and!; [done| |done]. by repeat constructor. Qed.

Lemma catch_inside h (p : promise D) (handler : value → promise D) :
  (∀ w, inside h w (p w).2) →
  (∀ e w, inside h w (handler e w).2) →
  ∀ w, inside h w (catch p handler w).2.
Proof.
  intros Hp Hh w. unfold catch. specialize (Hp w).
  destruct (p w) as [[v|e] w']; [done|].
  eapply inside_trans; [exact Hp|apply Hh].
Qed.

(** The scope: what the handler does with its handle stays between the
    [Acquire] and the [Release] of that handle. *)
Lemma using_scoped (handler : nat → promise D) :
  (∀ h w, inside h w (handler h w).2) →
  ∀ w, scoped w (Promise_using handler w).2.
Proof.
  intros Hh w. unfold Promise_using.
  destruct (Mongo.connectAsync D (store w)) as [reason|].
  { by apply record_scoped. }
  specialize (Hh (issued w) (World (store w) (S (issued w))
                               (journal w ++ [Acquire (issued w)]))).
  destruct (handler _ _) as [r w']. simpl in *.
  destruct Hh as (held & Hj & Hheld & Hi). simpl in Hj, Hi.
  exists (Acquire (issued w) :: held ++ Release (issued w) :: []).
  unfold record. simpl. rewrite Hj, Hi, <- !app_assoc.
  split; [done|]. apply scopes_scope; [done|constructor].
Qed.

Lemma then_scoped (p : promise D) (k : value → promise D) :
  (∀ w, scoped w (p w).2) →
  (∀ v w, scoped w (k v w).2) →
  ∀ w, scoped w (then_ p k w).2.
Proof.
  intros Hp Hk w. unfold then_. specialize (Hp w).
  destruct (p w) as [[v|e] w']; [|done].
  eapply scoped_trans; [exact Hp|apply Hk].
Qed.

Lemma catch_scoped (p : promise D) (handler : value → promise D) :
  (∀ w, scoped w (p w).2) →
  (∀ e w, scoped w (handler e w).2) →
  ∀ w, scoped w (catch p handler w).2.
Proof.
  intros Hp Hh w. unfold catch. specialize (Hp w).
  destruct (p w) as [[v|e] w']; [done|].
  eapply scoped_trans; [exact Hp|apply Hh].
Qed.

Lemma each_from_scoped (l : list value) (iterator : value → promise D) :
  (∀ e w, scoped w (iterator e w).2) →
  ∀ w, scoped w (each_from l iterator w).2.
Proof.
  intros Hit. induction l as [|e rest IH]; intros w; simpl.
  - apply scoped_refl.
  - apply then_scoped; [apply Hit|intros _; apply IH].
Qed.

Lemma returns_scoped (p : promise D) :
  (∀ w, scoped w (p w).2) → ∀ w, scoped w (returns p w).2.
Proof. intros Hp w. rewrite returns_world. apply Hp. Qed.

Lemma using_call_scoped cName q w :
  scoped w (Promise_using (λ db, call db cName q) w).2.
Proof. apply using_scoped. intros. apply call_inside. Qed.

Lemma using_contained_scoped cName q (report : value → value) w :
  scoped w (Promise_using (λ db,
      caught_call db cName q
        (λ error w', (Fulfilled (VArr []), reportAlarm (report error) w'))) w).2.
Proof.
  apply using_scoped. intros h w0. unfold caught_call.
  destruct (Mongo.throws D cName q (store w0)); [apply call_inside|].
  apply catch_inside; [intros; apply call_inside|].
  intros e w1. apply reportAlarm_inside.
Qed.

(** Every exported function leaves the scopes it opened closed. *)
Lemma invoke_scoped (i : invocation) w : scoped w (invoke i w).2.
Proof.
  destruct i; simpl.
  - apply returns_scoped, then_scoped; intros; [apply using_call_scoped|apply scoped_refl].
  - apply returns_scoped, then_scoped; intros; [apply using_call_scoped|apply scoped_refl].
  - apply returns_scoped, then_scoped; intros; [apply using_call_scoped|apply scoped_refl].
  - apply returns_scoped. intros. apply using_call_scoped.
  - apply returns_scoped, catch_scoped; intros; [apply using_call_scoped|].
    by apply record_scoped.
  - unfold countByDay. destruct (negb _); [apply scoped_refl|].
    apply returns_scoped. intros.
    apply (using_contained_scoped _ _ (λ error, VObj _)).
  - apply returns_scoped. intros. apply using_call_scoped.
  - apply returns_scoped. intros.
    apply (using_contained_scoped _ _ (λ error, VObj _)).
  - apply returns_scoped. intros. apply using_call_scoped.
  - unfold remove. destruct (Nat.eqb _ _); [apply scoped_refl|].
    apply returns_scoped. intros. apply using_call_scoped.
  - apply returns_scoped. intros. apply using_call_scoped.
  - unfold updateMany. destruct (check_ids (D:=D) _); [apply scoped_refl|].
    apply returns_scoped, then_scoped; intros; [|apply scoped_refl].
    apply each_from_scoped. intros. apply using_call_scoped.
  - apply returns_scoped. intros.
    apply (using_contained_scoped _ _ (λ error, VObj _)).
  - apply returns_scoped. intros. apply using_call_scoped.
  - apply returns_scoped. intros. apply using_call_scoped.
  - apply returns_scoped. intros. apply using_call_scoped.
Qed.

Lemma session_scoped (calls : list invocation) w : scoped w (session calls w).
Proof.
  revert w. induction calls as [|i calls IH]; intros w; simpl.
  - apply scoped_refl.
  - eapply scoped_trans; [apply invoke_scoped|apply IH].
Qed.

(** C2.  After any mix of calls of the exported functions, whatever they
    were given and however each of them ended, the journal has grown by a
    stretch of closed scopes: every handle acquired is a new one, is used
    only until its release, and is released before the next one is
    acquired.  So the handles released are exactly the handles acquired,
    each of them once, and there are as many releases as acquisitions.  A
    single call is a mix of one. *)
Theorem every_handle_is_released_once (calls : list invocation) w :
  ∃ evs,
    journal (session calls w) = journal w ++ evs ∧
    scopes (issued w) evs (issued (session calls w)) ∧
    released evs = acquired evs ∧
    NoDup (released evs) ∧
    length (released evs) = length (acquired evs).
Proof.
  destruct (session_scoped calls w) as (evs & Hj & Hscopes).
  destruct (scopes_handles _ _ _ Hscopes) as (Hr & Ha & _).
  exists evs. rewrite Hr, Ha. split_and!; [done..| |done].
  apply NoDup_seq.
Qed.

End Properties.

(** ** Runs on the simulated store *)

Lemma sim_honours_skip_and_limit (st : Sim.state) :
  (∀ cName q, Sim.raises st cName q = false) →
  honours_skip_and_limit (D:=Sim.driver) st
    (λ cName selector _, Sim.found st cName selector).
Proof.
  intros Hok cName selector sorter n l Hl. simpl. unfold Sim.run.
  rewrite Hok. simpl.
  destruct (Z.ltb_spec (Z.of_nat n) 0); [lia|]. simpl.
  destruct (Z.eqb_spec (Z.of_nat l) 0); [lia|].
  by rewrite Z.abs_eq, !Nat2Z.id by lia.
Qed.

(** [remove] of the video with [id] 2 reaches the store when it is up, and
    stops at the refusal when it is down. *)
Lemma remove_empty_selector_guard_witness :
  own_props (VObj {[ "id" := VNum (Num 2) ]}) ≠ ∅ ∧
  Mongo.connectAsync Sim.driver Sim.healthy = None ∧
  requests (journal (remove "videos" (VObj {[ "id" := VNum (Num 2) ]})
                       (Sim.boot Sim.healthy)).2)
  = [("videos", Mongo.remove (VObj {[ "id" := VNum (Num 2) ]}))] ∧
  journal (remove "videos" (VObj {[ "id" := VNum (Num 2) ]})
             (Sim.boot Sim.offline)).2
  = [Refused (VErr "MongoError" "connect ECONNREFUSED")].
Proof.
  assert (own_props (VObj {[ "id" := VNum (Num 2) ]}) ≠ ∅) as Hsome.
  { simpl. intros Hempty. apply (f_equal (λ m, m !! "id")) in Hempty.
    vm_compute in Hempty. discriminate Hempty. }
  split_and!; [exact Hsome|reflexivity| |].
  - destruct (remove_empty_selector_guard "videos"
                (VObj {[ "id" := VNum (Num 2) ]}) (Sim.boot Sim.healthy))
      as [_ Hreach].
    destruct (Hreach Hsome) as [_ Hgranted].
    rewrite (Hgranted eq_refl _ _ eq_refl). reflexivity.
  - destruct (remove_empty_selector_guard "videos"
                (VObj {[ "id" := VNum (Num 2) ]}) (Sim.boot Sim.offline))
      as [_ Hreach].
    destruct (Hreach Hsome) as [Hrefused _].
    rewrite (Hrefused _ eq_refl). reflexivity.
Defined.

(** The same for every keyless selector: here the empty array. *)
Lemma remove_rejects_keyless_selectors_witness :
  lodash.keys (VArr []) = [] ∧
  remove "videos" (VArr []) (Sim.boot Sim.healthy) =
    (Throws (Error "Nope, you can't delete {} "), Sim.boot Sim.healthy).
Proof.
  split; [reflexivity|].
  destruct (remove_rejects_keyless_selectors "videos" (Sim.boot Sim.healthy))
    as [Hkeyless _].
  apply Hkeyless. reflexivity.
Defined.

(** [countByDay] by ["savingTime"] throws, by ["$savingTime"] it does not. *)
Lemma countByDay_time_field_guard_witness :
  lodash.startsWith (VStr "savingTime") "$" = false ∧
  lodash.startsWith (VStr "$savingTime") "$" = true ∧
  countByDay "videos" (VStr "savingTime") (VObj ∅) VUndefined (Sim.boot Sim.healthy) =
    (Throws (Error "developer please: mongoVar wants '$'"), Sim.boot Sim.healthy) ∧
  ∃ s w',
    countByDay "videos" (VStr "$savingTime") (VObj ∅) VUndefined (Sim.boot Sim.healthy)
    = (Settles s, w').
Proof.
  split_and!; [reflexivity|reflexivity| |].
  - destruct (countByDay_time_field_guard "videos" (VStr "savingTime") (VObj ∅)
                VUndefined (Sim.boot Sim.healthy)) as [Hthrows _].
    apply Hthrows. reflexivity.
  - destruct (countByDay_time_field_guard "videos" (VStr "$savingTime") (VObj ∅)
                VUndefined (Sim.boot Sim.healthy)) as [_ Hreturns].
    apply Hreturns. reflexivity.
Defined.

(** The three contained aggregations on a store whose pipelines raise, and
    [lookup] without a second stage behind a driver that throws on it. *)
Lemma aggregations_degrade_to_empty_witness :
  Mongo.connectAsync Sim.driver Sim.broken = None ∧
  lodash.startsWith (VStr "$savingTime") "$" = true ∧
  Mongo.execute Sim.driver "videos" (Mongo.aggregate [VObj ∅; VObj ∅]) Sim.broken
  = (inr Sim.failure, Sim.broken) ∧
  Mongo.throws Sim.driver "videos" (Mongo.aggregate [VObj ∅; VObj ∅]) Sim.broken
  = false ∧
  (countByDay "videos" (VStr "$savingTime") (VObj ∅) VUndefined
     (Sim.boot Sim.broken)).1 = Settles (Fulfilled (VArr [])) ∧
  (countByObject "videos" VUndefined (Sim.boot Sim.broken)).1
    = Settles (Fulfilled (VArr [])) ∧
  (lookup "videos" (VObj ∅) (VObj ∅) (Sim.boot Sim.broken)).1
    = Settles (Fulfilled (VArr [])) ∧
  alarms (journal (lookup "videos" (VObj ∅) (VObj ∅) (Sim.boot Sim.broken)).2)
  = [alarm_record "lookup" Sim.failure
       (VObj {[ "cName" := VStr "videos";
                "query" := VObj ∅;
                "sequence" := VObj ∅ ]})] ∧
  Mongo.connectAsync Sim.pipelines Sim.healthy = None ∧
  Mongo.execute Sim.pipelines "videos"
    (Mongo.aggregate [VObj {[ "$match" := VObj ∅ ]}; VUndefined]) Sim.healthy
  = (inr (TypeError Sim.v8 VUndefined "$out"), Sim.healthy) ∧
  Mongo.throws Sim.pipelines "videos"
    (Mongo.aggregate [VObj {[ "$match" := VObj ∅ ]}; VUndefined]) Sim.healthy
  = true ∧
  (lookup "videos" (VObj {[ "$match" := VObj ∅ ]}) VUndefined
     (Sim.boot_pipelines Sim.healthy)).1
  = Settles (Rejected (TypeError Sim.v8 VUndefined "$out")).
Proof.
  destruct (aggregations_degrade_to_empty "videos" (Sim.boot Sim.broken)
              Sim.failure Sim.broken eq_refl) as (Hday & Hobject & Hlookup).
  destruct (aggregations_degrade_to_empty "videos" (Sim.boot_pipelines Sim.healthy)
              (TypeError Sim.v8 VUndefined "$out") Sim.healthy eq_refl)
    as (_ & _ & Hthrown).
  assert (Mongo.execute Sim.pipelines "videos"
            (Mongo.aggregate [VObj {[ "$match" := VObj ∅ ]}; VUndefined]) Sim.healthy
          = (inr (TypeError Sim.v8 VUndefined "$out"), Sim.healthy)) as Hthrows
    by reflexivity.
  split; [reflexivity|]. split; [reflexivity|]. split; [reflexivity|].
  split; [reflexivity|]. split; [|split; [|split; [|split]]].
  - destruct (Hday (VStr "$savingTime") (VObj ∅) VUndefined eq_refl eq_refl)
      as [Hcontained _].
    by rewrite (Hcontained eq_refl).
  - destruct (Hobject VUndefined eq_refl) as [Hcontained _].
    by rewrite (Hcontained eq_refl).
  - destruct (Hlookup (VObj ∅) (VObj ∅) eq_refl) as [Hcontained _].
    by rewrite (Hcontained eq_refl).
  - destruct (Hlookup (VObj ∅) (VObj ∅) eq_refl) as [Hcontained _].
    by rewrite (Hcontained eq_refl).
  - split; [reflexivity|]. split; [exact Hthrows|]. split; [reflexivity|].
    destruct (Hthrown (VObj {[ "$match" := VObj ∅ ]}) VUndefined Hthrows)
      as [_ Hrejected].
    by rewrite (Hrejected eq_refl).
Defined.

(** Not every failure of a pipeline is contained, and not every input is
    reported as it came.  [lookup] without its second stage makes the
    driver throw on the way to the cursor: the promise is rejected with
    what was thrown and the alarm sink hears nothing.  And [countByObject]
    without a grouping object reports [{}] for it. *)
Lemma aggregations_let_a_throw_through :
  (lookup "videos" (VObj {[ "$match" := VObj ∅ ]}) VUndefined
     (Sim.boot_pipelines Sim.healthy)).1
  = Settles (Rejected (TypeError Sim.v8 VUndefined "$out")) ∧
  alarms (journal (lookup "videos" (VObj {[ "$match" := VObj ∅ ]}) VUndefined
                     (Sim.boot_pipelines Sim.healthy)).2) = [] ∧
  alarms (journal (countByObject "videos" VUndefined (Sim.boot Sim.broken)).2)
  = [alarm_record "countByObject" Sim.failure
       (VObj {[ "cName" := VStr "videos"; "idobj" := VObj ∅ ]})] ∧
  alarm_record "countByObject" Sim.failure
    (VObj {[ "cName" := VStr "videos"; "idobj" := VObj ∅ ]})
  ≠ alarm_record "countByObject" Sim.failure
      (VObj {[ "cName" := VStr "videos"; "idobj" := VUndefined ]}).
Proof.
  split_and!; [reflexivity|reflexivity|reflexivity|].
  intros Hsame.
  apply (f_equal (λ record,
           match record with
           | VObj fields =>
               match fields !! "info" with
               | Some (VObj info) => info !! "idobj"
               | _ => None
               end
           | _ => None
           end)) in Hsame.
  vm_compute in Hsame. discriminate Hsame.
Qed.

(** [countByDay] with the extra dimension [{user: "$userId"}]. *)
Lemma countByDay_issues_match_and_group_witness :
  lodash.startsWith (VStr "$savingTime") "$" = true ∧
  Mongo.connectAsync Sim.driver Sim.healthy = None ∧
  ∃ K : gmap string value,
    requests (journal (countByDay "videos" (VStr "$savingTime") (VObj ∅)
                         (VObj {[ "user" := VStr "$userId" ]})
                         (Sim.boot Sim.healthy)).2) =
      [("videos",
        Mongo.aggregate
          [ VObj {[ "$match" := VObj ∅ ]};
            VObj {[ "$group" :=
              VObj {[ "_id" := VObj K;
                      "count" := VObj {[ "$sum" := VNum (Num 1) ]} ]} ]} ])] ∧
    K !! "user" = Some (VStr "$userId") ∧
    K !! "day" = Some (VObj {[ "$dayOfMonth" := VStr "$savingTime" ]}).
Proof.
  split_and!; [reflexivity|reflexivity|].
  destruct (countByDay_issues_match_and_group "videos" (VStr "$savingTime") (VObj ∅)
              (VObj {[ "user" := VStr "$userId" ]}) (Sim.boot Sim.healthy)
              eq_refl eq_refl) as (K & Hsent & Hextended & _).
  exists K. split; [exact Hsent|].
  rewrite Hextended; [split; reflexivity|reflexivity|].
  simpl. intros Hempty. apply (f_equal (λ m, m !! "user")) in Hempty.
  vm_compute in Hempty. discriminate Hempty.
Defined.


(** [countByMatch] and [aggregate] on a store where every request raises. *)
Lemma countByMatch_and_aggregate_propagate_witness :
  Mongo.connectAsync Sim.driver Sim.failing = None ∧
  (countByMatch "videos" (VObj ∅) (Sim.boot Sim.failing)).1
    = Settles (Rejected Sim.failure) ∧
  (aggregate "videos" (VObj ∅) (VObj ∅) (Sim.boot Sim.failing)).1
    = Settles (Rejected Sim.failure).
Proof.
  destruct (countByMatch_and_aggregate_propagate "videos" (Sim.boot Sim.failing))
    as (Hcount & Haggregate & _).
  split_and!; [reflexivity| |].
  - apply (Hcount (VObj ∅) Sim.failure Sim.failing); reflexivity.
  - apply (Haggregate (VObj ∅) (VObj ∅) Sim.failure Sim.failing); reflexivity.
Defined.

(** The second page of one video per page. *)
Lemma readLimit_skips_past_witness :
  lodash.isNaN (VNum (Num 1)) = false ∧
  Mongo.connectAsync Sim.driver Sim.healthy = None ∧
  (readLimit "videos" (VObj ∅) (VObj ∅) (VNum (Num 1)) (VNum (Num 1))
     (Sim.boot Sim.healthy)).1
  = Settles (Fulfilled (VArr (take 1 (drop 1 (Sim.found Sim.healthy "videos" (VObj ∅)))))) ∧
  requests (journal (readLimit "videos" (VObj ∅) (VObj ∅) (VNum (Num 1)) (VNum (Num 1))
                       (Sim.boot Sim.healthy)).2)
  = [("videos",
      Mongo.toArray (Mongo.Cursor (VObj ∅) (Some (VObj ∅)) (Some (VNum (Num 1)))
                       (Some (VNum (Num 1)))))] ∧
  Mongo.execute Sim.driver "videos"
    (Mongo.toArray (Mongo.Cursor (VObj ∅) (Some (VObj ∅))
                      (Some (VNum (Num 1))) (Some (VNum (Num 1)))))
    Sim.healthy
  = (inl (VArr (take 1 (drop 1 Sim.videos))), Sim.healthy) ∧
  (readLimit "videos" (VObj ∅) (VObj ∅) (VNum (Num 1)) (VNum (Num 1))
     (Sim.boot Sim.healthy)).1
  = Settles (Fulfilled (VArr (take 1 (drop 1 Sim.videos)))) ∧
  alarms (journal (readLimit "videos" (VObj ∅) (VObj ∅) (VNum (Num 1)) (VNum (Num 1))
                     (Sim.boot Sim.healthy)).2)
  = alarms (journal (Sim.boot Sim.healthy)).
Proof.
  destruct (readLimit_skips_past "videos" (VObj ∅) (VObj ∅) (VNum (Num 1))
              (Sim.boot Sim.healthy)) as (_ & Hsent & Hpage).
  assert (Mongo.execute Sim.driver "videos"
            (Mongo.toArray (Mongo.Cursor (VObj ∅) (Some (VObj ∅))
                              (Some (VNum (Num 1))) (Some (VNum (Num 1)))))
            Sim.healthy
          = (inl (VArr (take 1 (drop 1 Sim.videos))), Sim.healthy)) as Hanswer
    by reflexivity.
  destruct (Hsent (VNum (Num 1)) eq_refl eq_refl) as [Hrequest Hhanded].
  split; [reflexivity|]. split; [reflexivity|]. split; [|split; [|split]].
  - apply (Hpage (λ cName selector _, Sim.found Sim.healthy cName selector) 1 1).
    + apply sim_honours_skip_and_limit. reflexivity.
    + reflexivity.
    + reflexivity.
    + lia.
  - exact Hrequest.
  - exact Hanswer.
  - apply (Hhanded _ _ Hanswer).
Defined.

(** A batch of three on a store that refuses the update of the second:
    the first went through, the third was never tried. *)
Lemma updateMany_validates_then_updates_in_order_witness :
  Forall (λ e, has_id e = true) Sim.videos ∧
  (updateMany "videos" Sim.videos (Sim.boot Sim.stubborn)).1
    = Settles (Rejected Sim.failure) ∧
  length (requests (journal (updateMany "videos" Sim.videos
                               (Sim.boot Sim.stubborn)).2)) = 2.
Proof.
  assert (Forall (λ e, has_id e = true) Sim.videos) as Hvalid.
  { repeat constructor. }
  destruct (updateMany_validates_then_updates_in_order "videos" Sim.videos
              (Sim.boot Sim.stubborn)) as [_ Hbatch].
  destruct (Hbatch Hvalid) as [_ Hstops].
  split; [exact Hvalid|].
  edestruct (Hstops [VObj {[ "id" := VNum (Num 1); "title" := VStr "a" ]}]
               (VObj {[ "id" := VNum (Num 2); "title" := VStr "b" ]})
               [VObj {[ "id" := VNum (Num 3); "title" := VStr "c" ]}]
               Sim.failure) as [Hrun _].
  - reflexivity.
  - econstructor; [|constructor].
    eexists _, _, _. split_and!; reflexivity.
  - right. eexists _, _. split_and!; reflexivity.
  - rewrite Hrun. split; reflexivity.
Defined.

(** A batch with an element without [id] in the middle. *)
Lemma updateMany_rejects_incomplete_batch :
  updateMany "videos"
    [ VObj {[ "id" := VNum (Num 1) ]}; VObj {[ "title" := VStr "b" ]};
      VObj {[ "id" := VNum (Num 3) ]} ] (Sim.boot Sim.healthy)
  = (Throws (Error "we need id in every element"), Sim.boot Sim.healthy).
Proof. reflexivity. Qed.

(** A skip count that is not a number is not always a skip count of 0, and
    a limit is not always a bound.  With the skip count left out, the cursor
    gets [undefined] to skip, which the store refuses, so that the call
    reports an alarm and answers with no document, where a skip count of 0
    gives the first two videos.  With the limit 0 the store sets no limit
    and all three videos come back.  With the skip count -1 the store
    refuses again, and no document comes back. *)
Lemma readLimit_without_skip_is_not_skip_zero :
  lodash.isNaN VUndefined = false ∧
  (readLimit "videos" (VObj ∅) (VObj ∅) (VNum (Num 2)) VUndefined
     (Sim.boot Sim.healthy)).1 = Settles (Fulfilled (VArr [])) ∧
  (readLimit "videos" (VObj ∅) (VObj ∅) (VNum (Num 2)) (VNum (Num 0))
     (Sim.boot Sim.healthy)).1 = Settles (Fulfilled (VArr (take 2 Sim.videos))) ∧
  readLimit "videos" (VObj ∅) (VObj ∅) (VNum (Num 2)) VUndefined (Sim.boot Sim.healthy)
  ≠ readLimit "videos" (VObj ∅) (VObj ∅) (VNum (Num 2)) (VNum (Num 0))
      (Sim.boot Sim.healthy) ∧
  (readLimit "videos" (VObj ∅) (VObj ∅) (VNum (Num 0)) (VNum (Num 0))
     (Sim.boot Sim.healthy)).1 = Settles (Fulfilled (VArr Sim.videos)) ∧
  ¬ length Sim.videos ≤ 0 ∧
  (readLimit "videos" (VObj ∅) (VObj ∅) (VNum (Num 2)) (VNum (Num (-1)))
     (Sim.boot Sim.healthy)).1 = Settles (Fulfilled (VArr [])).
Proof.
  split_and!; [reflexivity|reflexivity|reflexivity| |reflexivity|simpl; lia|reflexivity].
  intros Hsame. apply (f_equal (λ r, length (journal r.2))) in Hsame.
  vm_compute in Hsame. discriminate Hsame.
Qed.


(** *** The corners of the lodash predicates *)

(** [_.isNaN] is not the global [isNaN]: only the number [NaN] passes. *)
Example isNaN_of_undefined : lodash.isNaN VUndefined = false.
Proof. reflexivity. Qed.

Example isNaN_of_string : lodash.isNaN (VStr "abc") = false.
Proof. reflexivity. Qed.

(** [_.startsWith] looks at the string a value converts to. *)
Example startsWith_of_array : lodash.startsWith (VArr [VStr "$a"; VNull]) "$" = true.
Proof. reflexivity. Qed.

Example startsWith_of_undefined : lodash.startsWith VUndefined "$" = false.
Proof. reflexivity. Qed.

(** [_.keys] of a string are its indices, so a string passes the guard of
    [remove]. *)
Example keys_of_string : lodash.size (lodash.keys (VStr "ab")) = 2.
Proof. reflexivity. Qed.

(** *** The two ways of containing a failure *)

(** [readLimit] catches outside the scope: a refused connection is reported
    as well, after nothing was acquired. *)
Example readLimit_offline :
  (readLimit "videos" (VObj ∅) (VObj ∅) (VNum (Num 2)) (VNum (Num 0))
     (Sim.boot Sim.offline)).1 = Settles (Fulfilled (VArr [])) ∧
  acquired (journal (readLimit "videos" (VObj ∅) (VObj ∅) (VNum (Num 2)) (VNum (Num 0))
                       (Sim.boot Sim.offline)).2) = [] ∧
  length (alarms (journal (readLimit "videos" (VObj ∅) (VObj ∅) (VNum (Num 2))
                             (VNum (Num 0)) (Sim.boot Sim.offline)).2)) = 1.
Proof. split_and!; reflexivity. Qed.

(** [countByDay] catches inside the scope: a refused connection rejects. *)
Example countByDay_offline :
  (countByDay "videos" (VStr "$savingTime") (VObj ∅) VUndefined
     (Sim.boot Sim.offline)).1
  = Settles (Rejected (VErr "MongoError" "connect ECONNREFUSED")).
Proof. reflexivity. Qed.

(** *** A mix of calls *)

(** A delete that throws, a count, a batch that stops at its second element
    and a page: four scopes, opened and closed one after the other. *)
Example mixed_session :
  acquired (journal (session
    [ call_remove "videos" (VObj ∅);
      call_countByObject "videos" VUndefined;
      call_updateMany "videos" Sim.videos;
      call_readLimit "videos" (VObj ∅) (VObj ∅) (VNum (Num 2)) (VNum NaN) ]
    (Sim.boot Sim.stubborn))) = [0; 1; 2; 3] ∧
  released (journal (session
    [ call_remove "videos" (VObj ∅);
      call_countByObject "videos" VUndefined;
      call_updateMany "videos" Sim.videos;
      call_readLimit "videos" (VObj ∅) (VObj ∅) (VNum (Num 2)) (VNum NaN) ]
    (Sim.boot Sim.stubborn))) = [0; 1; 2; 3].
Proof. split; reflexivity. Qed.

(** ** Further properties of lib/mongo *)

Section Further.

Context {D : Mongo.Driver}.

Implicit Types (w : world D) (cName : string) (j : list event).

Ltac journal_parts :=
  simpl; rewrite ?acquired_app, ?released_app, ?requests_app, ?alarms_app;
  simpl; rewrite ?app_nil_r.

(** *** Writes that echo their argument *)

(** [.return(v)] after a scope around one call. *)
Lemma using_call_return cName q (v : value) w r st :
  Mongo.connectAsync D (store w) = None →
  Mongo.execute D cName q (store w) = (r, st) →
  return_ (Promise_using (λ db, call db cName q)) v w =
    (match r with inl _ => Fulfilled v | inr e => Rejected e end,
     World st (S (issued w))
       (journal w ++ [Acquire (issued w); Call (issued w) cName q;
                      Release (issued w)])).
Proof.
  intros Hc He. unfold return_, then_. rewrite (using_call _ _ _ _ _ Hc He).
  by destruct r.
Qed.

(** X1.  Once connected, [writeOne] makes one [insert] of the document; if
    the driver accepts it the promise is fulfilled with the document the
    caller gave, whatever the driver acknowledged, and if the driver raises
    the promise is rejected with that error. *)
Theorem writeOne_echoes_the_document cName dataObject w r st :
  Mongo.connectAsync D (store w) = None →
  Mongo.execute D cName (Mongo.insert dataObject) (store w) = (r, st) →
  writeOne cName dataObject w =
    (Settles (match r with inl _ => Fulfilled dataObject | inr e => Rejected e end),
     World st (S (issued w))
       (journal w ++ [Acquire (issued w);
                      Call (issued w) cName (Mongo.insert dataObject);
                      Release (issued w)])).
Proof.
  intros Hc He. unfold writeOne, returns.
  by rewrite (using_call_return _ _ _ _ _ _ Hc He).
Qed.

(** X2.  Once connected, [updateOne] and [upsertOne] make the same call of
    the driver's [updateOne], the first without options and the second with
    [{upsert: true}]; both fulfil with the update document the caller gave
    and reject with the error of the driver. *)
Theorem updateOne_and_upsertOne_echo_the_update cName selector updated w :
  Mongo.connectAsync D (store w) = None →
  (∀ r st,
     Mongo.execute D cName (Mongo.updateOne selector updated None) (store w)
       = (r, st) →
     updateOne cName selector updated w =
       (Settles (match r with inl _ => Fulfilled updated | inr e => Rejected e end),
        World st (S (issued w))
          (journal w ++ [Acquire (issued w);
                         Call (issued w) cName (Mongo.updateOne selector updated None);
                         Release (issued w)]))) ∧
  (∀ r st,
     Mongo.execute D cName
       (Mongo.updateOne selector updated (Some (VObj {[ "upsert" := VBool true ]})))
       (store w) = (r, st) →
     upsertOne cName selector updated w =
       (Settles (match r with inl _ => Fulfilled updated | inr e => Rejected e end),
        World st (S (issued w))
          (journal w ++
             [Acquire (issued w);
              Call (issued w) cName
                (Mongo.updateOne selector updated
                   (Some (VObj {[ "upsert" := VBool true ]})));
              Release (issued w)]))).
Proof.
  intros Hc. split; intros r st He.
  - unfold updateOne, returns. by rewrite (using_call_return _ _ _ _ _ _ Hc He).
  - unfold upsertOne, returns. by rewrite (using_call_return _ _ _ _ _ _ Hc He).
Qed.

(** *** Plain reads *)

(** X3.  [read] without a sorter is [read] with the sorter [{}].  With any
    sorter, once connected, it runs one cursor with the selector and the
    sorter and neither skip nor limit, and the promise settles as the
    driver answers: the documents, or the error, which is not reported to
    the alarm sink. *)
Theorem read_sorts_by_nothing_when_no_sorter cName selector w :
  read cName selector VUndefined w = read cName selector (VObj ∅) w ∧
  (∀ sorter r st,
     sorter ≠ VUndefined →
     Mongo.connectAsync D (store w) = None →
     Mongo.execute D cName
       (Mongo.toArray (Mongo.Cursor selector (Some sorter) None None)) (store w)
       = (r, st) →
     read cName selector sorter w =
       (Settles (settles r),
        World st (S (issued w))
          (journal w ++
             [Acquire (issued w);
              Call (issued w) cName
                (Mongo.toArray (Mongo.Cursor selector (Some sorter) None None));
              Release (issued w)]))).
Proof.
  split; [done|].
  intros sorter r st Hgiven Hc He. unfold read, returns, tap.
  replace (lodash.isUndefined sorter) with false by by destruct sorter.
  by rewrite (using_call _ _ _ _ _ Hc He).
Qed.

(** *** The paginated read *)

(** X4.  [readLimit] never throws and never rejects.  When the connection
    is refused, the refusal is reported as one alarm and the answer is the
    empty array, with no handle acquired and no request made; when the
    cursor raises, the handle is released first and then the error is
    reported as one alarm, and the answer is the empty array.  The alarm
    names ["readLimit"] and carries selector, limit and sorter. *)
Theorem readLimit_always_fulfils cName selector sorter limitN past w :
  (∃ v w', readLimit cName selector sorter limitN past w
           = (Settles (Fulfilled v), w')) ∧
  (∀ reason,
     Mongo.connectAsync D (store w) = Some reason →
     readLimit cName selector sorter limitN past w =
       (Settles (Fulfilled (VArr [])),
        World (store w) (issued w)
          (journal w ++
             [Refused reason;
              Alarm (alarm_record "readLimit" reason
                       (VObj {[ "selector" := selector;
                                "limit" := limitN;
                                "sorter" := sorter ]}))]))) ∧
  (∀ errstr st,
     Mongo.connectAsync D (store w) = None →
     Mongo.execute D cName
       (Mongo.toArray
          (Mongo.Cursor selector (Some sorter)
             (Some (if lodash.isNaN past then VNum (Num 0) else past))
             (Some limitN))) (store w) = (inr errstr, st) →
     readLimit cName selector sorter limitN past w =
       (Settles (Fulfilled (VArr [])),
        World st (S (issued w))
          (journal w ++
             [Acquire (issued w);
              Call (issued w) cName
                (Mongo.toArray
                   (Mongo.Cursor selector (Some sorter)
                      (Some (if lodash.isNaN past then VNum (Num 0) else past))
                      (Some limitN)));
              Release (issued w);
              Alarm (alarm_record "readLimit" errstr
                       (VObj {[ "selector" := selector;
                                "limit" := limitN;
                                "sorter" := sorter ]}))]))).
Proof.
  split_and!.
  - unfold readLimit, returns, catch, tap.
    destruct (Promise_using _ w) as [[v|e] w']; eauto.
  - intros reason Hc. unfold readLimit, returns, catch, tap.
    rewrite (using_refused _ _ _ Hc). unfold reportAlarm, record. simpl.
    by rewrite <- app_assoc.
  - intros errstr st Hc He. unfold readLimit, returns, catch, tap.
    rewrite (using_call _ _ _ _ _ Hc He). unfold reportAlarm, record. simpl.
    by rewrite <- app_assoc.
Qed.

(** *** The contained aggregations, when nothing fails in the store *)

(** X5.  The containment of [countByDay], [countByObject] and [lookup] sits
    inside the connection scope: when the connection is refused, their
    promise is rejected with the refusal, and neither a request nor an
    alarm is made. *)
Theorem contained_aggregations_reject_a_refused_connection cName w reason :
  Mongo.connectAsync D (store w) = Some reason →
  (∀ timeVarName filter aggext,
     lodash.startsWith timeVarName "$" = true →
     countByDay cName timeVarName filter aggext w =
       (Settles (Rejected reason),
        World (store w) (issued w) (journal w ++ [Refused reason]))) ∧
  (∀ idobj,
     countByObject cName idobj w =
       (Settles (Rejected reason),
        World (store w) (issued w) (journal w ++ [Refused reason]))) ∧
  (∀ query sequence,
     lookup cName query sequence w =
       (Settles (Rejected reason),
        World (store w) (issued w) (journal w ++ [Refused reason]))).
Proof.
  intros Hc. split_and!.
  - intros timeVarName filter aggext Hdollar.
    unfold countByDay, returns, tap. rewrite Hdollar. simpl.
    by rewrite (using_refused _ _ _ Hc).
  - intros idobj. unfold countByObject, returns.
    by rewrite (using_refused _ _ _ Hc).
  - intros query sequence. unfold lookup, returns.
    by rewrite (using_refused _ _ _ Hc).
Qed.

(** X6.  When the store answers the pipeline, [countByDay], [countByObject]
    and [lookup] fulfil with that answer as it is and report nothing. *)
Theorem contained_aggregations_pass_the_answer_on cName w answer st :
  Mongo.connectAsync D (store w) = None →
  (∀ timeVarName filter aggext,
     lodash.startsWith timeVarName "$" = true →
     Mongo.execute D cName (Mongo.aggregate (totalQ timeVarName filter aggext))
       (store w) = (inl answer, st) →
     countByDay cName timeVarName filter aggext w =
       (Settles (Fulfilled answer),
        World st (S (issued w))
          (journal w ++
             [Acquire (issued w);
              Call (issued w) cName (Mongo.aggregate (totalQ timeVarName filter aggext));
              Release (issued w)]))) ∧
  (∀ idobj,
     idobj ≠ VUndefined →
     Mongo.execute D cName
       (Mongo.aggregate
          [ VObj {[ "$group" :=
              VObj {[ "_id" := idobj;
                      "count" := VObj {[ "$sum" := VNum (Num 1) ]} ]} ]};
            VObj {[ "$sort" := VObj {[ "count" := VNum (Num (-1)) ]} ]} ])
       (store w) = (inl answer, st) →
     (countByObject cName idobj w).1 = Settles (Fulfilled answer) ∧
     alarms (journal (countByObject cName idobj w).2) = alarms (journal w)) ∧
  (∀ query sequence,
     Mongo.execute D cName (Mongo.aggregate [query; sequence]) (store w)
       = (inl answer, st) →
     lookup cName query sequence w =
       (Settles (Fulfilled answer),
        World st (S (issued w))
          (journal w ++
             [Acquire (issued w);
              Call (issued w) cName (Mongo.aggregate [query; sequence]);
              Release (issued w)]))).
Proof.
  intros Hc. split_and!.
  - intros timeVarName filter aggext Hdollar He.
    unfold countByDay, returns, tap. rewrite Hdollar. simpl.
    by rewrite (using_contained_call _ _ _ _ _ (λ error, VObj _) Hc He).
  - intros idobj Hgiven He. unfold countByObject, returns.
    replace (lodash.isUndefined idobj) with false by by destruct idobj.
    rewrite (using_contained_call _ _ _ _ _ (λ error, VObj _) Hc He).
    split; [done|]. by journal_parts.
  - intros query sequence He. unfold lookup, returns.
    by rewrite (using_contained_call _ _ _ _ _ (λ error, VObj _) Hc He).
Qed.

(** *** Functions that hand the driver's answer on *)

(** X19.  Once connected, [writeMany], [countByMatch], [aggregate], [save],
    [createIndex] and [distinct] each make one call of the driver
    ([insertMany], [find(selector).count()], [aggregate] of the match and
    group stages, [save], [ensureIndex], [distinct]) and settle exactly as
    that call does: fulfilled with the driver's own answer, rejected with
    the driver's own error. *)
Theorem six_functions_settle_as_the_driver_does cName w :
  Mongo.connectAsync D (store w) = None →
  let through := λ (call : operation D) (q : Mongo.request),
    ∀ r st,
      Mongo.execute D cName q (store w) = (r, st) →
      call w =
        (Settles (settles r),
         World st (S (issued w))
           (journal w ++ [Acquire (issued w); Call (issued w) cName q;
                          Release (issued w)])) in
  (∀ dataObjects,
     through (writeMany cName dataObjects) (Mongo.insertMany dataObjects)) ∧
  (∀ selector, through (countByMatch cName selector) (Mongo.count selector)) ∧
  (∀ match_ group,
     through (aggregate cName match_ group)
       (Mongo.aggregate [ VObj {[ "$match" := match_ ]};
                          VObj {[ "$group" := group ]} ])) ∧
  (∀ doc, through (save cName doc) (Mongo.save doc)) ∧
  (∀ index opt,
     through (createIndex cName index opt) (Mongo.ensureIndex index opt)) ∧
  (∀ field query,
     through (distinct cName field query) (Mongo.distinct field query)).
Proof.
  intros Hc through. unfold through.
  split_and!; intros; unfold writeMany, countByMatch, aggregate, save, createIndex,
    distinct, returns, tap; by erewrite using_call.
Qed.

(** *** How a batch ends *)

(** X20.  A batch in which every element has an [id] ends in one of two
    ways: all its updates went through, in order, and the promise is
    fulfilled with the batch; or the updates of a first part went through,
    the next element failed, and the promise is rejected with that
    failure. *)
Theorem updateMany_ends_in_one_of_two_ways cName elist w :
  Forall (λ e, has_id e = true) elist →
  (∃ w',
     applied_all cName elist w w' ∧
     updateMany cName elist w = (Settles (Fulfilled (VArr elist)), w')) ∨
  (∃ done e rest reason w1 w2,
     elist = done ++ e :: rest ∧
     applied_all cName done w w1 ∧
     failed cName e reason w1 w2 ∧
     updateMany cName elist w = (Settles (Rejected reason), w2)).
Proof.
  intros Hvalid.
  assert (check_ids (D:=D) elist = None) as Hcheck by by apply check_ids_passes.
  destruct (batch_cases cName elist w Hvalid)
    as [[w' Hall] | (done & e & rest & reason & w1 & w2 & -> & Hall & Hfail)].
  - left. exists w'. split; [done|].
    unfold updateMany. rewrite Hcheck. unfold returns, Promise_each, then_.
    rewrite <- (app_nil_r elist) at 1.
    by rewrite (each_from_applied _ _ _ _ _ Hall).
  - right. exists done, e, rest, reason, w1, w2. split_and!; [done..|].
    unfold updateMany. rewrite Hcheck. unfold returns, Promise_each, then_.
    rewrite (each_from_applied _ _ _ _ _ Hall). simpl. unfold then_.
    by rewrite (update_failed _ _ _ _ _ Hfail).
Qed.

(** *** What a call can cost *)

Lemma footprint_refl w : footprint 0 0 w w.
Proof. exists []. rewrite app_nil_r. by split_and!. Qed.

Lemma footprint_weaken n a n' a' w w' :
  n ≤ n' → a ≤ a' → footprint n a w w' → footprint n' a' w w'.
Proof.
  intros Hn Ha (evs & Hj & Hone & Hscopes & Halarms).
  exists evs. split_and!; [done|done|lia|lia].
Qed.

Lemma footprint_trans n1 a1 n2 a2 w1 w2 w3 :
  footprint n1 a1 w1 w2 → footprint n2 a2 w2 w3 →
  footprint (n1 + n2) (a1 + a2) w1 w3.
Proof.
  intros (evs1 & Hj1 & Hone1 & Hn1 & Ha1) (evs2 & Hj2 & Hone2 & Hn2 & Ha2).
  exists (evs1 ++ evs2). rewrite Hj2, Hj1, <- app_assoc.
  rewrite requests_app, acquired_app, alarms_app, !length_app.
  split_and!; [done|lia..].
Qed.

Lemma footprint_of_call cName q w :
  footprint 1 0 w (Promise_using (λ db, call db cName q) w).2.
Proof.
  destruct (Mongo.connectAsync D (store w)) as [reason|] eqn:Hc.
  - rewrite (using_refused _ _ _ Hc). exists [Refused reason]. simpl.
    split_and!; [done|done|lia|lia].
  - destruct (Mongo.execute D cName q (store w)) as [r st] eqn:He.
    rewrite (using_call _ _ _ _ _ Hc He).
    eexists; split_and!; [done|simpl; lia..].
Qed.

Lemma footprint_of_contained_call cName q (report : value → value) w :
  footprint 1 1 w (Promise_using (λ db,
      caught_call db cName q
        (λ error w', (Fulfilled (VArr []), reportAlarm (report error) w'))) w).2.
Proof.
  destruct (Mongo.connectAsync D (store w)) as [reason|] eqn:Hc.
  - rewrite (using_refused _ _ _ Hc). exists [Refused reason]. simpl.
    split_and!; [done|done|lia|lia].
  - destruct (Mongo.execute D cName q (store w)) as [r st] eqn:He.
    rewrite (using_contained_call _ _ _ _ _ _ Hc He).
    destruct r; [|destruct (Mongo.throws D cName q (store w))];
      eexists; (split_and!; [done|simpl; lia..]).
Qed.

Lemma footprint_of_each cName (l : list value) w :
  footprint (length l) 0 w
    (each_from l (λ e, Promise_using (λ db,
       call db cName
         (Mongo.update (VObj {[ "id" := default VUndefined (member e "id") ]}) e))) w).2.
Proof.
  revert w. induction l as [|e rest IH]; intros w; simpl.
  - apply footprint_refl.
  - unfold then_.
    pose proof (footprint_of_call cName
      (Mongo.update (VObj {[ "id" := default VUndefined (member e "id") ]}) e) w)
      as Hfirst.
    destruct (Promise_using _ w) as [[v|reason] w1]; simpl in *.
    + apply (footprint_trans 1 0 (length rest) 0 _ _ _ Hfirst (IH w1)).
    + eapply footprint_weaken; [| |exact Hfirst]; lia.
Qed.

Lemma then_resolve_world (p : promise D) (v : value) w :
  (then_ p (λ _, resolve v) w).2 = (p w).2.
Proof. unfold then_, resolve. by destruct (p w) as [[?|?] ?]. Qed.

(** What every exported function can do to the journal in one call. *)
Lemma invoke_footprint (i : invocation) w :
  footprint (scopes_at_most i) (if silent i then 0 else 1) w (invoke i w).2.
Proof.
  destruct i; simpl.
  - unfold updateOne, return_. rewrite returns_world, then_resolve_world.
    apply footprint_of_call.
  - unfold upsertOne, return_. rewrite returns_world, then_resolve_world.
    apply footprint_of_call.
  - unfold writeOne, return_. rewrite returns_world, then_resolve_world.
    apply footprint_of_call.
  - unfold writeMany. rewrite returns_world. apply footprint_of_call.
  - unfold readLimit, tap, catch. rewrite returns_world.
    pose proof (footprint_of_call cName
      (Mongo.toArray (Mongo.Cursor selector (Some sorter)
         (Some (if lodash.isNaN past then VNum (Num 0) else past)) (Some limitN))) w)
      as Hscope.
    destruct (Promise_using _ w) as [[v|e] w1]; simpl in *.
    + eapply footprint_weaken; [| |exact Hscope]; lia.
    + apply (footprint_trans 1 0 0 1 _ _ _ Hscope).
      eexists [Alarm _]. split_and!; [done|simpl; lia..].
  - unfold countByDay. destruct (negb _).
    + eapply footprint_weaken; [| |apply footprint_refl]; lia.
    + unfold tap. rewrite returns_world.
      apply (footprint_of_contained_call _ _ (λ error, VObj _)).
  - unfold countByMatch. rewrite returns_world. apply footprint_of_call.
  - unfold countByObject. rewrite returns_world.
    apply (footprint_of_contained_call _ _ (λ error, VObj _)).
  - unfold read, tap. rewrite returns_world. apply footprint_of_call.
  - unfold remove. destruct (Nat.eqb _ _).
    + eapply footprint_weaken; [| |apply footprint_refl]; lia.
    + rewrite returns_world. apply footprint_of_call.
  - unfold aggregate, tap. rewrite returns_world. apply footprint_of_call.
  - unfold updateMany. destruct (check_ids (D:=D) _).
    + eapply footprint_weaken; [| |apply footprint_refl]; lia.
    + unfold Promise_each. rewrite returns_world, then_resolve_world.
      apply footprint_of_each.
  - unfold lookup. rewrite returns_world.
    apply (footprint_of_contained_call _ _ (λ error, VObj _)).
  - unfold save. rewrite returns_world. apply footprint_of_call.
  - unfold createIndex, tap. rewrite returns_world. apply footprint_of_call.
  - unfold distinct, tap. rewrite returns_world. apply footprint_of_call.
Qed.

(** X7.  Only [readLimit], [countByDay], [countByObject] and [lookup] talk
    to the alarm sink, and they report at most one alarm a call: every
    other exported function leaves the alarms as they were, whatever the
    connection and the store do. *)
Theorem alarms_come_from_four_functions_only (i : invocation) w :
  ∃ evs,
    journal (invoke i w).2 = journal w ++ evs ∧
    length (alarms evs) ≤ 1 ∧
    (silent i = true → alarms evs = []).
Proof.
  destruct (invoke_footprint i w) as (evs & Hj & _ & _ & Halarms).
  exists evs. split_and!; [done| |].
  - destruct (silent i); lia.
  - intros Hsilent. rewrite Hsilent in Halarms. by apply nil_length_inv, Nat.le_0_r.
Qed.

Lemma one_call_each_app n evs1 m evs2 k :
  one_call_each n evs1 m → one_call_each m evs2 k → one_call_each n (evs1 ++ evs2) k.
Proof.
  intros Hfirst Hsecond.
  induction Hfirst as [n|n e evs m He _ IH|n c q reported evs m Hreported _ IH]; simpl.
  - done.
  - apply one_call_between; [done|by apply IH].
  - rewrite <- app_assoc. simpl. apply one_call_scope; [done|by apply IH].
Qed.

Lemma tidy_refl w : tidy 0 w w.
Proof. exists []. rewrite app_nil_r. split_and!; [done|constructor|lia]. Qed.

Lemma tidy_weaken n n' w w' : n ≤ n' → tidy n w w' → tidy n' w w'.
Proof. intros Hn (evs & Hj & Hcalls & Hi). exists evs. split_and!; [done|done|lia]. Qed.

Lemma tidy_trans n1 n2 w1 w2 w3 :
  tidy n1 w1 w2 → tidy n2 w2 w3 → tidy (n1 + n2) w1 w3.
Proof.
  intros (evs1 & Hj1 & Hcalls1 & Hi1) (evs2 & Hj2 & Hcalls2 & Hi2).
  exists (evs1 ++ evs2). rewrite Hj2, Hj1, <- app_assoc.
  split_and!; [done|by eapply one_call_each_app|lia].
Qed.

Lemma tidy_alarm (r : value) w : tidy 0 w (reportAlarm r w).
Proof.
  exists [Alarm r]. split_and!; [done| |simpl; lia].
  apply one_call_between; [done|constructor].
Qed.

Lemma tidy_call cName q w :
  tidy 1 w (Promise_using (λ db, call db cName q) w).2.
Proof.
  destruct (Mongo.connectAsync D (store w)) as [reason|] eqn:Hc.
  - rewrite (using_refused _ _ _ Hc). exists [Refused reason].
    split_and!; [done| |simpl; lia].
    apply one_call_between; [done|constructor].
  - destruct (Mongo.execute D cName q (store w)) as [r st] eqn:He.
    rewrite (using_call _ _ _ _ _ Hc He). eexists. split_and!; [done| |simpl; lia].
    apply (one_call_scope _ _ _ []); constructor.
Qed.

Lemma tidy_contained_call cName q (report : value → value) w :
  tidy 1 w (Promise_using (λ db,
      caught_call db cName q
        (λ error w', (Fulfilled (VArr []), reportAlarm (report error) w'))) w).2.
Proof.
  destruct (Mongo.connectAsync D (store w)) as [reason|] eqn:Hc.
  - rewrite (using_refused _ _ _ Hc). exists [Refused reason].
    split_and!; [done| |simpl; lia].
    apply one_call_between; [done|constructor].
  - destruct (Mongo.execute D cName q (store w)) as [r st] eqn:He.
    rewrite (using_contained_call _ _ _ _ _ _ Hc He).
    destruct r; [|destruct (Mongo.throws D cName q (store w))];
      eexists; (split_and!; [done| |simpl; lia]).
    + apply (one_call_scope _ _ _ []); constructor.
    + apply (one_call_scope _ _ _ []); constructor.
    + apply (one_call_scope _ _ _ [Alarm _]); [|constructor].
      repeat constructor. by eexists.
Qed.

Lemma tidy_each cName (l : list value) w :
  tidy (length l) w
    (each_from l (λ e, Promise_using (λ db,
       call db cName
         (Mongo.update (VObj {[ "id" := default VUndefined (member e "id") ]}) e))) w).2.
Proof.
  revert w. induction l as [|e rest IH]; intros w; simpl.
  - apply tidy_refl.
  - unfold then_.
    pose proof (tidy_call cName
      (Mongo.update (VObj {[ "id" := default VUndefined (member e "id") ]}) e) w)
      as Hfirst.
    destruct (Promise_using _ w) as [[v|reason] w1]; simpl in *.
    + apply (tidy_trans 1 (length rest) _ _ _ Hfirst (IH w1)).
    + eapply tidy_weaken; [|exact Hfirst]. lia.
Qed.

Lemma invoke_tidy (i : invocation) w : tidy (scopes_at_most i) w (invoke i w).2.
Proof.
  destruct i; simpl.
  - unfold updateOne, return_. rewrite returns_world, then_resolve_world.
    apply tidy_call.
  - unfold upsertOne, return_. rewrite returns_world, then_resolve_world.
    apply tidy_call.
  - unfold writeOne, return_. rewrite returns_world, then_resolve_world.
    apply tidy_call.
  - unfold writeMany. rewrite returns_world. apply tidy_call.
  - unfold readLimit, tap, catch. rewrite returns_world.
    pose proof (tidy_call cName
      (Mongo.toArray (Mongo.Cursor selector (Some sorter)
         (Some (if lodash.isNaN past then VNum (Num 0) else past)) (Some limitN))) w)
      as Hscope.
    destruct (Promise_using _ w) as [[v|e] w1]; simpl in *; [done|].
    apply (tidy_trans 1 0 _ _ _ Hscope). apply tidy_alarm.
  - unfold countByDay. destruct (negb _).
    + eapply tidy_weaken; [|apply tidy_refl]; lia.
    + unfold tap. rewrite returns_world.
      apply (tidy_contained_call _ _ (λ error, VObj _)).
  - unfold countByMatch. rewrite returns_world. apply tidy_call.
  - unfold countByObject. rewrite returns_world.
    apply (tidy_contained_call _ _ (λ error, VObj _)).
  - unfold read, tap. rewrite returns_world. apply tidy_call.
  - unfold remove. destruct (Nat.eqb _ _).
    + eapply tidy_weaken; [|apply tidy_refl]; lia.
    + rewrite returns_world. apply tidy_call.
  - unfold aggregate, tap. rewrite returns_world. apply tidy_call.
  - unfold updateMany. destruct (check_ids (D:=D) _).
    + eapply tidy_weaken; [|apply tidy_refl]; lia.
    + unfold Promise_each. rewrite returns_world, then_resolve_world.
      apply tidy_each.
  - unfold lookup. rewrite returns_world.
    apply (tidy_contained_call _ _ (λ error, VObj _)).
  - unfold save. rewrite returns_world. apply tidy_call.
  - unfold createIndex, tap. rewrite returns_world. apply tidy_call.
  - unfold distinct, tap. rewrite returns_world. apply tidy_call.
Qed.

(** X8.  In a call of an exported function every handle that is acquired
    is used for exactly one call on the driver, made through that handle
    and followed by nothing but an alarm, before it is released and before
    the next handle is acquired; a call of [updateMany] acquires at most as
    many handles as the batch has elements, a call of any other exported
    function at most one. *)
Theorem one_call_per_handle (i : invocation) w :
  ∃ evs,
    journal (invoke i w).2 = journal w ++ evs ∧
    one_call_each (issued w) evs (issued (invoke i w).2) ∧
    issued (invoke i w).2 ≤ issued w + scopes_at_most i ∧
    length (requests evs) = length (acquired evs) ∧
    length (acquired evs) ≤ scopes_at_most i.
Proof.
  destruct (invoke_tidy i w) as (evs & Hj & Hcalls & Hi).
  destruct (invoke_footprint i w) as (evs' & Hj' & Hone & Hscopes & _).
  assert (evs' = evs) as -> by (rewrite Hj in Hj'; by apply app_inv_head in Hj').
  by exists evs.
Qed.

(** *** Calls that throw *)

Lemma check_ids_offender elist error :
  check_ids (D:=D) elist = Some error → ∃ e, e ∈ elist ∧ has_id e = false.
Proof.
  induction elist as [|e rest IH]; simpl; [done|].
  unfold has_id at 1.
  destruct (member e "id") as [id|] eqn:Hid.
  - destruct (lodash.isUndefined id) eqn:Hundefined.
    + intros _. exists e. split; [apply list_elem_of_here|].
      unfold has_id. by rewrite Hid, Hundefined.
    + intros Hrest. destruct (IH Hrest) as (x & Hin & Hx).
      exists x. split; [by apply list_elem_of_further|done].
  - intros _. exists e. split; [apply list_elem_of_here|].
    unfold has_id. by rewrite Hid.
Qed.

(** X9.  A call of an exported function that throws has done nothing: the
    world is as it was.  And only three guards throw: [remove] for a
    selector without properties, [countByDay] for a time field without
    ['$'], [updateMany] for a batch with an element without [id]. *)
Theorem a_call_that_throws_has_done_nothing (i : invocation) w error w' :
  invoke i w = (Throws error, w') →
  w' = w ∧
  ((∃ cName selector,
      i = call_remove cName selector ∧ own_props selector = ∅ ∧
      error = Error "Nope, you can't delete {} ") ∨
   (∃ cName timeVarName filter aggext,
      i = call_countByDay cName timeVarName filter aggext ∧
      lodash.startsWith timeVarName "$" = false ∧
      error = Error "developer please: mongoVar wants '$'") ∨
   (∃ cName elist e,
      i = call_updateMany cName elist ∧ e ∈ elist ∧ has_id e = false)).
Proof.
  assert (∀ (p : promise D), returns p w ≠ (Throws error, w')) as Hreturns.
  { intros p. unfold returns. by destruct (p w). }
  destruct i; simpl; intros Hthrows;
    try (by apply Hreturns in Hthrows).
  - unfold countByDay in Hthrows.
    destruct (lodash.startsWith timeVarName "$") eqn:Hdollar; simpl in Hthrows;
      [by apply Hreturns in Hthrows|].
    injection Hthrows as <- <-. split; [done|]. right. left. by eexists _, _, _, _.
  - unfold remove in Hthrows.
    destruct (Nat.eqb _ _) eqn:Hkeys; [|by apply Hreturns in Hthrows].
    injection Hthrows as <- <-. split; [done|]. left.
    eexists _, _. split_and!; [done| |done]. by apply no_keys_size.
  - unfold updateMany in Hthrows.
    destruct (check_ids (D:=D) elist) as [thrown|] eqn:Hcheck;
      [|by apply Hreturns in Hthrows].
    injection Hthrows as <- <-. split; [done|]. right. right.
    destruct (check_ids_offender _ _ Hcheck) as (e & Hin & He).
    by eexists _, _, e.
Qed.

(** X11.  The check of [updateMany] stops at the first element without
    [id]: what is thrown is decided by that element alone, the TypeError of
    the engine for reading [id] of it if it is [undefined] or [null] (the
    wording is the engine's), the error of the module otherwise. *)
Theorem updateMany_throws_at_the_first_element_without_id cName good bad rest w :
  Forall (λ e, has_id e = true) good →
  has_id bad = false →
  updateMany cName (good ++ bad :: rest) w =
    (Throws (match member bad "id" with
             | None => TypeError (Mongo.engine D) bad "id"
             | Some _ => Error "we need id in every element"
             end), w) ∧
  (member bad "id" = None ↔ bad = VUndefined ∨ bad = VNull).
Proof.
  intros Hgood Hbad. split.
  - unfold updateMany.
    assert (check_ids (D:=D) (good ++ bad :: rest) =
            Some (match member bad "id" with
                  | None => TypeError (Mongo.engine D) bad "id"
                  | Some _ => Error "we need id in every element"
                  end)) as ->; [|done].
    induction Hgood as [|e good He _ IH]; simpl.
    + unfold has_id in Hbad. destruct (member bad "id") as [id|]; [|done].
      by destruct (lodash.isUndefined id).
    + unfold has_id in He. destruct (member e "id") as [id|]; [|done].
      by destruct (lodash.isUndefined id).
  - destruct bad; simpl;
      (split;
       [intros Hnone; first [discriminate Hnone | by left | by right]
       |intros [Hbad'|Hbad']; first [discriminate Hbad' | reflexivity]]).
Qed.

(** *** A connection that is refused *)

(** X10.  When the connection is refused, no exported function gets to a
    collection: store and handles stay as they were and no request is
    made.  The refusal comes back as the rejection of the promise, except
    that [readLimit] turns it into the empty array (and an alarm), that an
    empty batch of [updateMany] never asks for a connection, and that the
    guards throw first. *)
Theorem a_refused_connection_reaches_no_collection (i : invocation) w reason :
  Mongo.connectAsync D (store w) = Some reason →
  store (invoke i w).2 = store w ∧
  issued (invoke i w).2 = issued w ∧
  requests (journal (invoke i w).2) = requests (journal w) ∧
  ((invoke i w).1 = Settles (Rejected reason) ∨
   (∃ error, (invoke i w).1 = Throws error) ∨
   ((invoke i w).1 = Settles (Fulfilled (VArr [])) ∧
    ((∃ cName selector sorter limitN past,
        i = call_readLimit cName selector sorter limitN past) ∨
     (∃ cName, i = call_updateMany cName [])))).
Proof.
  intros Hc.
  destruct i; simpl;
    unfold updateOne, upsertOne, writeOne, writeMany, readLimit, countByMatch,
      countByObject, read, aggregate, lookup, save, createIndex, distinct,
      returns, return_, then_, catch, tap, reportAlarm, record;
    rewrite ?(using_refused _ _ _ Hc); simpl;
    try (split_and!; [done|done|by journal_parts|by left]).
  - split_and!; [done|done|by journal_parts|].
    right. right. split; [done|]. left. by eexists _, _, _, _, _.
  - unfold countByDay. destruct (negb _); simpl.
    + split_and!; [done|done|done|]. right. left. by eexists.
    + unfold returns, tap. rewrite (using_refused _ _ _ Hc). simpl.
      split_and!; [done|done|by journal_parts|by left].
  - unfold remove. destruct (Nat.eqb _ _); simpl.
    + split_and!; [done|done|done|]. right. left. by eexists.
    + unfold returns. rewrite (using_refused _ _ _ Hc). simpl.
      split_and!; [done|done|by journal_parts|by left].
  - unfold updateMany. destruct (check_ids (D:=D) elist); simpl.
    + split_and!; [done|done|done|]. right. left. by eexists.
    + unfold returns, Promise_each, then_. destruct elist as [|e rest]; simpl.
      * split_and!; [done|done|done|]. right. right. split; [done|].
        right. by eexists.
      * unfold then_. rewrite (using_refused _ _ _ Hc). simpl.
        split_and!; [done|done|by journal_parts|by left].
Qed.

(** *** The time field, by type *)

Lemma dollar_first c s :
  String.prefix "$" (String c s) = bool_decide (String c "" = "$").
Proof.
  simpl. case_match; subst.
  - by destruct s.
  - symmetry. apply bool_decide_eq_false. congruence.
Qed.

Lemma dollar_first_app s t :
  s ≠ "" → String.prefix "$" (s +:+ t) = String.prefix "$" s.
Proof.
  destruct s as [|c s]; [done|]. intros _.
  change (String c s +:+ t) with (String c (s +:+ t)). by rewrite !dollar_first.
Qed.

(** The digits of a number do not start with ['$']. *)
Lemma digits_no_dollar x s :
  String.prefix "$" s = false → String.prefix "$" (pretty_N_go x s) = false.
Proof.
  revert s. induction (N.lt_wf_0 x) as [x _ IH]; intros s Hs.
  assert (x = 0 ∨ 0 < x)%N as [->|Hpos] by lia.
  - by rewrite pretty_N_go_0.
  - rewrite pretty_N_go_step by done. apply IH.
    { by apply N.div_lt. }
    rewrite dollar_first. apply bool_decide_eq_false.
    unfold pretty_N_char. by repeat case_match.
Qed.

Lemma number_no_dollar (z : Z) : String.prefix "$" (pretty z) = false.
Proof.
  destruct z as [|p|p]; [done| |done].
  unfold pretty, pretty_Z, pretty, pretty_positive, pretty, pretty_N.
  case_decide; [done|]. by apply digits_no_dollar.
Qed.

Lemma dollar_first_concat a l :
  String.prefix "$" (String.concat "," (a :: l)) = String.prefix "$" a.
Proof.
  destruct l as [|b l]; [done|].
  change (String.concat "," (a :: b :: l))
    with (a +:+ "," +:+ String.concat "," (b :: l)).
  destruct a as [|c a]; [done|]. by apply dollar_first_app.
Qed.

(** An array converts to a string that starts as its first element does. *)
Lemma startsWith_array x rest :
  lodash.startsWith (VArr (x :: rest)) "$" = lodash.startsWith x "$".
Proof.
  unfold lodash.startsWith.
  change (lodash.toString (VArr (x :: rest)))
    with (String.concat "," (lodash.baseToString x :: map lodash.baseToString rest)).
  rewrite dollar_first_concat. by destruct x.
Qed.

Lemma countByDay_refuses cName timeVarName filter aggext w :
  countByDay cName timeVarName filter aggext w =
    (Throws (Error "developer please: mongoVar wants '$'"), w)
  ↔ lodash.startsWith timeVarName "$" = false.
Proof.
  unfold countByDay. destruct (lodash.startsWith timeVarName "$"); simpl.
  - split; [|done]. unfold returns. by destruct (tap _ w).
  - done.
Qed.

(** X12.  The guard of [countByDay] by the type of [timeVarName]: the call
    throws for [undefined], [null], every boolean, every number, every
    plain object, every [Error] and the empty array; for a string it throws
    unless the first character is ['$']; and an array is judged by its
    first element, so that [["$savingTime"]] passes. *)
Theorem countByDay_guard_by_type cName filter aggext w :
  let refused := λ timeVarName,
    countByDay cName timeVarName filter aggext w =
      (Throws (Error "developer please: mongoVar wants '$'"), w) in
  refused VUndefined ∧ refused VNull ∧
  (∀ b, refused (VBool b)) ∧
  (∀ n, refused (VNum n)) ∧
  (∀ props, refused (VObj props)) ∧
  (∀ msg, refused (Error msg)) ∧
  refused (VArr []) ∧
  (∀ s, refused (VStr s) ↔ ∀ rest, s ≠ "$" +:+ rest) ∧
  (∀ x rest, refused (VArr (x :: rest)) ↔ refused x).
Proof.
  intros refused. unfold refused.
  split_and!; try (intros; by apply countByDay_refuses).
  - intros [|]; by apply countByDay_refuses.
  - intros [|z]; apply countByDay_refuses; [done|]. apply number_no_dollar.
  - intros s. rewrite countByDay_refuses. unfold lodash.startsWith. simpl.
    destruct s as [|c s]; [done|]. rewrite dollar_first.
    rewrite bool_decide_eq_false. split.
    + intros Hc rest Heq. apply Hc. simpl in Heq. by injection Heq as -> _.
    + intros Hrest Heq. injection Heq as ->. by apply (Hrest s).
  - intros x rest. by rewrite !countByDay_refuses, startsWith_array.
Qed.

(** *** The group key *)

(** X13.  The group key of [countByDay] is an object in which every
    property of an object [aggext] has the value [aggext] gives it, also
    under the names [year], [month] and [day], and in which every other
    name is as in [{year: {$year: t}, month: {$month: t}, day:
    {$dayOfMonth: t}}]. *)
Theorem countByDay_group_key timeVarName aggext :
  ∃ K : gmap string value,
    queryId timeVarName aggext = VObj K ∧
    (∀ k v,
       lodash.isObject aggext = true →
       own_props aggext !! k = Some v →
       K !! k = Some v) ∧
    (∀ k,
       lodash.isObject aggext = false ∨ own_props aggext !! k = None →
       K !! k =
         ({[ "year" := VObj {[ "$year" := timeVarName ]};
             "month" := VObj {[ "$month" := timeVarName ]};
             "day" := VObj {[ "$dayOfMonth" := timeVarName ]} ]}
            : gmap string value) !! k).
Proof.
  rewrite queryId_cases. eexists. split; [done|].
  destruct (lodash.isObject aggext) eqn:Hobject; simpl.
  - case_bool_decide as Hprops; simpl.
    + rewrite Hprops. split.
      * intros k v _ Hk. by rewrite lookup_empty in Hk.
      * done.
    + split.
      * intros k v _ Hk. by apply lookup_union_Some_l.
      * intros k [?|Hk]; [done|]. by apply lookup_union_r.
  - split; [done|]. done.
Qed.

End Further.

(** ** Properties of lib/supporters *)

Section Clients.

Context {M : mongo3.Api}.

Implicit Types (w : supporters.client_world M) (schema publicKey : value).

Ltac run_async :=
  unfold supporters.update, supporters.get, supporters.remove, mbind, mret,
    supporters.async_bind, supporters.async_ret, supporters.clientConnect,
    supporters.get_member, supporters.ask, supporters.close, supporters.throw_;
  simpl.

(** X14.  [get], once connected: a supporter that [readOne] finds is the
    answer, after the client was closed; when [readOne] finds none the
    promise is rejected with the error of the module, and when [readOne]
    raises with that error, and in both cases the client that was opened
    is not closed. *)
Theorem get_closes_the_client_only_when_found schema publicKey w collection st0 :
  member schema "supporters" = Some collection →
  mongo3.clientConnect M (VObj {[ "concurrency" := VNum (Num 1) ]})
    (supporters.client_store w) = (None, st0) →
  (∀ supporter st1 st2,
     mongo3.execute M
       (mongo3.readOne collection (VObj {[ "publicKey" := publicKey ]})) st0
       = (inl supporter, st1) →
     falsy supporter = false →
     mongo3.close M st1 = (None, st2) →
     supporters.get schema publicKey w =
       (inl supporter,
        supporters.ClientWorld st2
          (supporters.client_log w ++
             [mongo3.Opened;
              mongo3.Asked (mongo3.readOne collection
                              (VObj {[ "publicKey" := publicKey ]}));
              mongo3.Close]))) ∧
  (∀ supporter st1,
     mongo3.execute M
       (mongo3.readOne collection (VObj {[ "publicKey" := publicKey ]})) st0
       = (inl supporter, st1) →
     falsy supporter = true →
     supporters.get schema publicKey w =
       (inr (Error "publicKey do not match any user"),
        supporters.ClientWorld st1
          (supporters.client_log w ++
             [mongo3.Opened;
              mongo3.Asked (mongo3.readOne collection
                              (VObj {[ "publicKey" := publicKey ]}))]))) ∧
  (∀ error st1,
     mongo3.execute M
       (mongo3.readOne collection (VObj {[ "publicKey" := publicKey ]})) st0
       = (inr error, st1) →
     supporters.get schema publicKey w =
       (inr error,
        supporters.ClientWorld st1
          (supporters.client_log w ++
             [mongo3.Opened;
              mongo3.Asked (mongo3.readOne collection
                              (VObj {[ "publicKey" := publicKey ]}))]))).
Proof.
  intros Hschema Hconnect. split_and!.
  - intros supporter st1 st2 Hread Hfound Hclose. run_async.
    rewrite Hconnect, Hschema. simpl. rewrite Hread, Hfound. simpl.
    rewrite Hclose. simpl. by rewrite <- !app_assoc.
  - intros supporter st1 Hread Hnone. run_async.
    rewrite Hconnect, Hschema. simpl. rewrite Hread, Hnone. simpl.
    by rewrite <- !app_assoc.
  - intros error st1 Hread. run_async.
    rewrite Hconnect, Hschema. simpl. rewrite Hread. simpl.
    by rewrite <- !app_assoc.
Qed.

(** X15.  [update], once connected and with a supporter found: unless
    [update.publicKey == publicKey] the promise is rejected with the error
    of the module, no [updateOne] is made, and the client stays open; when
    the keys agree, [updateOne] is made with [{publicKey}] as selector and
    the caller's object as update, and what it answers is the answer, after
    the client was closed. *)
Theorem update_writes_only_under_the_same_key
    schema loosely_equal publicKey update w collection st0 supporter st1 key :
  member schema "supporters" = Some collection →
  mongo3.clientConnect M (VObj {[ "concurrency" := VNum (Num 1) ]})
    (supporters.client_store w) = (None, st0) →
  mongo3.execute M
    (mongo3.readOne collection (VObj {[ "publicKey" := publicKey ]})) st0
    = (inl supporter, st1) →
  falsy supporter = false →
  member update "publicKey" = Some key →
  (loosely_equal key publicKey = false →
     supporters.update schema loosely_equal publicKey update w =
       (inr (Error "publicKey can't be updarted"),
        supporters.ClientWorld st1
          (supporters.client_log w ++
             [mongo3.Opened;
              mongo3.Asked (mongo3.readOne collection
                              (VObj {[ "publicKey" := publicKey ]}))]))) ∧
  (loosely_equal key publicKey = true →
     ∀ newone st2 st3,
       mongo3.execute M
         (mongo3.updateOne collection (VObj {[ "publicKey" := publicKey ]}) update)
         st1 = (inl newone, st2) →
       mongo3.close M st2 = (None, st3) →
       supporters.update schema loosely_equal publicKey update w =
         (inl newone,
          supporters.ClientWorld st3
            (supporters.client_log w ++
               [mongo3.Opened;
                mongo3.Asked (mongo3.readOne collection
                                (VObj {[ "publicKey" := publicKey ]}));
                mongo3.Asked (mongo3.updateOne collection
                                (VObj {[ "publicKey" := publicKey ]}) update);
                mongo3.Close]))).
Proof.
  intros Hschema Hconnect Hread Hfound Hkey. split.
  - intros Hother. run_async.
    rewrite Hconnect, Hschema. simpl. rewrite Hread, Hfound, Hkey. simpl.
    rewrite Hother. simpl. by rewrite <- !app_assoc.
  - intros Hsame newone st2 st3 Hwrite Hclose. run_async.
    rewrite Hconnect, Hschema. simpl. rewrite Hread, Hfound, Hkey. simpl.
    rewrite Hsame. simpl. rewrite Hwrite. simpl. rewrite Hclose. simpl.
    by rewrite <- !app_assoc.
Qed.

(** X16.  [remove] has no guard of its own: once connected, whatever the
    [publicKey], also [undefined], one [deleteMany] with the selector
    [{publicKey}] is made; what it answers is the answer, after the client
    was closed, and when it raises the client stays open. *)
Theorem remove_deletes_by_public_key schema publicKey w collection st0 :
  member schema "supporters" = Some collection →
  mongo3.clientConnect M (VObj {[ "concurrency" := VNum (Num 1) ]})
    (supporters.client_store w) = (None, st0) →
  (∀ dunno st1 st2,
     mongo3.execute M
       (mongo3.deleteMany collection (VObj {[ "publicKey" := publicKey ]})) st0
       = (inl dunno, st1) →
     mongo3.close M st1 = (None, st2) →
     supporters.remove schema publicKey w =
       (inl dunno,
        supporters.ClientWorld st2
          (supporters.client_log w ++
             [mongo3.Opened;
              mongo3.Asked (mongo3.deleteMany collection
                              (VObj {[ "publicKey" := publicKey ]}));
              mongo3.Close]))) ∧
  (∀ error st1,
     mongo3.execute M
       (mongo3.deleteMany collection (VObj {[ "publicKey" := publicKey ]})) st0
       = (inr error, st1) →
     supporters.remove schema publicKey w =
       (inr error,
        supporters.ClientWorld st1
          (supporters.client_log w ++
             [mongo3.Opened;
              mongo3.Asked (mongo3.deleteMany collection
                              (VObj {[ "publicKey" := publicKey ]}))]))).
Proof.
  intros Hschema Hconnect. split.
  - intros dunno st1 st2 Hdelete Hclose. run_async.
    rewrite Hconnect, Hschema. simpl. rewrite Hdelete. simpl. rewrite Hclose. simpl.
    by rewrite <- !app_assoc.
  - intros error st1 Hdelete. run_async.
    rewrite Hconnect, Hschema. simpl. rewrite Hdelete. simpl.
    by rewrite <- !app_assoc.
Qed.

(** *** Clients left open *)

Lemma opened_app l1 l2 : opened (l1 ++ l2) = opened l1 + opened l2.
Proof. unfold opened. by rewrite omap_app, length_app. Qed.

Lemma closed_app l1 l2 : closed (l1 ++ l2) = closed l1 + closed l2.
Proof. unfold closed. by rewrite omap_app, length_app. Qed.

Lemma asked_app l1 l2 : asked (l1 ++ l2) = asked l1 ++ asked l2.
Proof. apply omap_app. Qed.

Ltac settle :=
  first [ exists []; split; [by rewrite app_nil_r|]
        | eexists; split; [by rewrite <- ?app_assoc|] ];
  unfold opened, closed; simpl; split_and!;
  first [ lia
        | left; lia
        | match goal with
          | H : mongo3.close M ?st = _ |- _ => right; exists st; by rewrite H
          end ].

Ltac step_async :=
  match goal with
  | |- context [mongo3.clientConnect M ?o ?st] =>
      destruct (mongo3.clientConnect M o st) as [[?|] ?]; simpl
  | |- context [member ?o ?k] => destruct (member o k); simpl
  | |- context [mongo3.execute M ?q ?st] =>
      destruct (mongo3.execute M q st) as [[?|?] ?]; simpl
  | |- context [falsy ?v] => destruct (falsy v); simpl
  | |- context [mongo3.close M ?st] =>
      let H := fresh "Hclose" in
      destruct (mongo3.close M st) as [[?|] ?] eqn:H; simpl
  | |- context [negb (?f ?a ?b)] => destruct (f a b); simpl
  end.

(** X17.  Whatever [mongo3] and the configuration do, each of [update],
    [get] and [remove] opens at most one client; when its promise is
    fulfilled the client was closed, once; when its promise is rejected
    the client, if one was opened, was not closed (save where [close]
    itself raised the error). *)
Theorem a_rejected_call_leaves_its_client_open schema loosely_equal publicKey update w :
  kept_or_leaked (supporters.update schema loosely_equal publicKey update w).1 w
    (supporters.update schema loosely_equal publicKey update w).2 ∧
  kept_or_leaked (supporters.get schema publicKey w).1 w
    (supporters.get schema publicKey w).2 ∧
  kept_or_leaked (supporters.remove schema publicKey w).1 w
    (supporters.remove schema publicKey w).2.
Proof.
  split_and!; run_async; repeat step_async; settle.
Qed.

(** X18.  [update] never writes under another key: when
    [update.publicKey == publicKey] does not hold, or [update] is
    [undefined] or [null], the promise is rejected and, whatever [mongo3]
    and the configuration do, the requests made are reads only. *)
Theorem update_never_writes_under_another_key
    schema loosely_equal publicKey update w :
  (∀ key, member update "publicKey" = Some key →
          loosely_equal key publicKey = false) →
  ∃ error steps,
    (supporters.update schema loosely_equal publicKey update w).1 = inr error ∧
    supporters.client_log
      (supporters.update schema loosely_equal publicKey update w).2
    = supporters.client_log w ++ steps ∧
    forallb reads_only (asked steps) = true.
Proof.
  intros Hother. run_async.
  destruct (mongo3.clientConnect M _ _) as [[e|] st0]; simpl.
  { exists e, []. by rewrite app_nil_r. }
  destruct (member schema "supporters") as [collection|]; simpl.
  2: { by eexists _, [_]. }
  destruct (mongo3.execute M _ st0) as [[supporter|e] st1]; simpl.
  2: { eexists _, [_; _]. by rewrite <- !app_assoc. }
  destruct (falsy supporter); simpl.
  { eexists _, [_; _]. by rewrite <- !app_assoc. }
  destruct (member update "publicKey") as [key|] eqn:Hkey; simpl.
  2: { eexists _, [_; _]. by rewrite <- !app_assoc. }
  rewrite (Hother key eq_refl). simpl.
  eexists _, [_; _]. by rewrite <- !app_assoc.
Qed.

End Clients.

(** ** Further runs on the simulated store *)

Lemma writeOne_echoes_the_document_witness :
  Mongo.connectAsync Sim.driver Sim.healthy = None ∧
  (writeOne "videos" (VObj {[ "id" := VNum (Num 4) ]}) (Sim.boot Sim.healthy)).1
  = Settles (Fulfilled (VObj {[ "id" := VNum (Num 4) ]})).
Proof.
  split; [reflexivity|].
  by rewrite (writeOne_echoes_the_document "videos" (VObj {[ "id" := VNum (Num 4) ]})
                (Sim.boot Sim.healthy) _ _ eq_refl eq_refl).
Defined.

Lemma updateOne_and_upsertOne_echo_the_update_witness :
  Mongo.connectAsync Sim.driver Sim.failing = None ∧
  (updateOne "videos" (VObj {[ "id" := VNum (Num 1) ]})
     (VObj {[ "id" := VNum (Num 1); "title" := VStr "z" ]})
     (Sim.boot Sim.healthy)).1
  = Settles (Fulfilled (VObj {[ "id" := VNum (Num 1); "title" := VStr "z" ]})) ∧
  (upsertOne "videos" (VObj {[ "id" := VNum (Num 1) ]})
     (VObj {[ "id" := VNum (Num 1); "title" := VStr "z" ]})
     (Sim.boot Sim.failing)).1
  = Settles (Rejected Sim.failure).
Proof.
  split_and!; [reflexivity| |].
  - destruct (updateOne_and_upsertOne_echo_the_update "videos"
                (VObj {[ "id" := VNum (Num 1) ]})
                (VObj {[ "id" := VNum (Num 1); "title" := VStr "z" ]})
                (Sim.boot Sim.healthy) eq_refl) as [Hupdate _].
    by rewrite (Hupdate _ _ eq_refl).
  - destruct (updateOne_and_upsertOne_echo_the_update "videos"
                (VObj {[ "id" := VNum (Num 1) ]})
                (VObj {[ "id" := VNum (Num 1); "title" := VStr "z" ]})
                (Sim.boot Sim.failing) eq_refl) as [_ Hupsert].
    by rewrite (Hupsert _ _ eq_refl).
Defined.

Lemma read_sorts_by_nothing_when_no_sorter_witness :
  VNull ≠ VUndefined ∧
  Mongo.connectAsync Sim.driver Sim.healthy = None ∧
  (read "videos" (VObj {[ "id" := VNum (Num 2) ]}) VNull (Sim.boot Sim.healthy)).1
  = Settles (Fulfilled
      (VArr [VObj {[ "id" := VNum (Num 2); "title" := VStr "b" ]}])) ∧
  requests (journal (read "videos" (VObj {[ "id" := VNum (Num 2) ]}) VNull
                       (Sim.boot Sim.healthy)).2)
  = [("videos",
      Mongo.toArray (Mongo.Cursor (VObj {[ "id" := VNum (Num 2) ]})
                       (Some VNull) None None))].
Proof.
  destruct (read_sorts_by_nothing_when_no_sorter "videos"
              (VObj {[ "id" := VNum (Num 2) ]}) (Sim.boot Sim.healthy))
    as [_ Hread].
  assert (VNull ≠ VUndefined) as Hgiven by discriminate.
  rewrite (Hread VNull _ _ Hgiven eq_refl eq_refl).
  split_and!; [exact Hgiven|reflexivity|reflexivity|reflexivity].
Defined.

Lemma readLimit_always_fulfils_witness :
  Mongo.connectAsync Sim.driver Sim.offline
    = Some (VErr "MongoError" "connect ECONNREFUSED") ∧
  Mongo.connectAsync Sim.driver Sim.failing = None ∧
  alarms (journal (readLimit "videos" (VObj ∅) (VObj ∅) (VNum (Num 2)) (VNum NaN)
                     (Sim.boot Sim.offline)).2)
  = [alarm_record "readLimit" (VErr "MongoError" "connect ECONNREFUSED")
       (VObj {[ "selector" := VObj ∅; "limit" := VNum (Num 2);
                "sorter" := VObj ∅ ]})] ∧
  journal (readLimit "videos" (VObj ∅) (VObj ∅) (VNum (Num 2)) (VNum NaN)
             (Sim.boot Sim.failing)).2
  = [Acquire 0;
     Call 0 "videos"
       (Mongo.toArray (Mongo.Cursor (VObj ∅) (Some (VObj ∅)) (Some (VNum (Num 0)))
                         (Some (VNum (Num 2)))));
     Release 0;
     Alarm (alarm_record "readLimit" Sim.failure
              (VObj {[ "selector" := VObj ∅; "limit" := VNum (Num 2);
                       "sorter" := VObj ∅ ]}))].
Proof.
  split_and!; [reflexivity|reflexivity| |].
  - destruct (readLimit_always_fulfils "videos" (VObj ∅) (VObj ∅) (VNum (Num 2))
                (VNum NaN) (Sim.boot Sim.offline)) as (_ & Hrefused & _).
    by rewrite (Hrefused _ eq_refl).
  - destruct (readLimit_always_fulfils "videos" (VObj ∅) (VObj ∅) (VNum (Num 2))
                (VNum NaN) (Sim.boot Sim.failing)) as (_ & _ & Hraised).
    by rewrite (Hraised _ _ eq_refl eq_refl).
Defined.

Lemma contained_aggregations_reject_a_refused_connection_witness :
  Mongo.connectAsync Sim.driver Sim.offline
    = Some (VErr "MongoError" "connect ECONNREFUSED") ∧
  lodash.startsWith (VStr "$savingTime") "$" = true ∧
  (countByDay "videos" (VStr "$savingTime") (VObj ∅) VUndefined
     (Sim.boot Sim.offline)).1
  = Settles (Rejected (VErr "MongoError" "connect ECONNREFUSED")) ∧
  (countByObject "videos" VUndefined (Sim.boot Sim.offline)).1
  = Settles (Rejected (VErr "MongoError" "connect ECONNREFUSED")) ∧
  (lookup "videos" (VObj ∅) (VObj ∅) (Sim.boot Sim.offline)).1
  = Settles (Rejected (VErr "MongoError" "connect ECONNREFUSED")).
Proof.
  destruct (contained_aggregations_reject_a_refused_connection "videos"
              (Sim.boot Sim.offline) _ eq_refl) as (Hday & Hobject & Hlookup).
  split_and!; [reflexivity|reflexivity| | |].
  - by rewrite (Hday (VStr "$savingTime") (VObj ∅) VUndefined eq_refl).
  - by rewrite (Hobject VUndefined).
  - by rewrite (Hlookup (VObj ∅) (VObj ∅)).
Defined.

Lemma contained_aggregations_pass_the_answer_on_witness :
  Mongo.connectAsync Sim.driver Sim.healthy = None ∧
  lodash.startsWith (VStr "$savingTime") "$" = true ∧
  VObj {[ "user" := VStr "$userId" ]} ≠ VUndefined ∧
  (countByDay "videos" (VStr "$savingTime") (VObj ∅) VUndefined
     (Sim.boot Sim.healthy)).1 = Settles (Fulfilled (VArr [])) ∧
  alarms (journal (countByObject "videos" (VObj {[ "user" := VStr "$userId" ]})
                     (Sim.boot Sim.healthy)).2) = [] ∧
  alarms (journal (lookup "videos" (VObj ∅) (VObj ∅) (Sim.boot Sim.healthy)).2) = [].
Proof.
  destruct (contained_aggregations_pass_the_answer_on "videos" (Sim.boot Sim.healthy)
              (VArr []) Sim.healthy eq_refl) as (Hday & Hobject & Hlookup).
  assert (VObj {[ "user" := VStr "$userId" ]} ≠ VUndefined) as Hgiven by discriminate.
  split_and!; [reflexivity|reflexivity|exact Hgiven| | |].
  - by rewrite (Hday (VStr "$savingTime") (VObj ∅) VUndefined eq_refl eq_refl).
  - by destruct (Hobject (VObj {[ "user" := VStr "$userId" ]}) Hgiven eq_refl)
      as [_ ->].
  - by rewrite (Hlookup (VObj ∅) (VObj ∅) eq_refl).
Defined.

Lemma alarms_come_from_four_functions_only_witness :
  silent (call_save "videos" (VObj ∅)) = true ∧
  ∃ evs,
    journal (invoke (call_save "videos" (VObj ∅)) (Sim.boot Sim.failing)).2
    = journal (Sim.boot Sim.failing) ++ evs ∧
    alarms evs = [].
Proof.
  split; [reflexivity|].
  destruct (alarms_come_from_four_functions_only (call_save "videos" (VObj ∅))
              (Sim.boot Sim.failing)) as (evs & Hj & _ & Hsilent).
  exists evs. split; [exact Hj|]. apply Hsilent. reflexivity.
Defined.

Lemma a_call_that_throws_has_done_nothing_witness :
  invoke (call_countByDay "videos" (VStr "savingTime") (VObj ∅) VUndefined)
    (Sim.boot Sim.healthy)
  = (Throws (Error "developer please: mongoVar wants '$'"), Sim.boot Sim.healthy) ∧
  ((∃ cName selector,
      call_countByDay "videos" (VStr "savingTime") (VObj ∅) VUndefined
      = call_remove cName selector ∧ own_props selector = ∅ ∧
      Error "developer please: mongoVar wants '$'"
      = Error "Nope, you can't delete {} ") ∨
   (∃ cName timeVarName filter aggext,
      call_countByDay "videos" (VStr "savingTime") (VObj ∅) VUndefined
      = call_countByDay cName timeVarName filter aggext ∧
      lodash.startsWith timeVarName "$" = false ∧
      Error "developer please: mongoVar wants '$'"
      = Error "developer please: mongoVar wants '$'") ∨
   (∃ cName elist e,
      call_countByDay "videos" (VStr "savingTime") (VObj ∅) VUndefined
      = call_updateMany cName elist ∧ e ∈ elist ∧ has_id e = false)).
Proof.
  assert (invoke (call_countByDay "videos" (VStr "savingTime") (VObj ∅) VUndefined)
            (Sim.boot Sim.healthy)
          = (Throws (Error "developer please: mongoVar wants '$'"),
             Sim.boot Sim.healthy))
    as Hthrows by reflexivity.
  split; [exact Hthrows|].
  by destruct (a_call_that_throws_has_done_nothing _ _ _ _ Hthrows) as [_ Hguard].
Defined.

Lemma a_refused_connection_reaches_no_collection_witness :
  Mongo.connectAsync Sim.driver Sim.offline
    = Some (VErr "MongoError" "connect ECONNREFUSED") ∧
  requests (journal (invoke (call_updateMany "videos" Sim.videos)
                       (Sim.boot Sim.offline)).2) = [] ∧
  store (invoke (call_writeOne "videos" (VObj ∅)) (Sim.boot Sim.offline)).2
  = Sim.offline.
Proof.
  split_and!; [reflexivity| |].
  - by destruct (a_refused_connection_reaches_no_collection
                   (call_updateMany "videos" Sim.videos) (Sim.boot Sim.offline) _
                   eq_refl) as (_ & _ & -> & _).
  - by destruct (a_refused_connection_reaches_no_collection
                   (call_writeOne "videos" (VObj ∅)) (Sim.boot Sim.offline) _
                   eq_refl) as (-> & _).
Defined.

Lemma updateMany_throws_at_the_first_element_without_id_witness :
  Forall (λ e, has_id e = true) [VObj {[ "id" := VNum (Num 1) ]}] ∧
  has_id VNull = false ∧
  updateMany "videos"
    ([VObj {[ "id" := VNum (Num 1) ]}] ++ VNull :: [VObj {[ "title" := VStr "b" ]}])
    (Sim.boot Sim.healthy)
  = (Throws (VErr "TypeError" "Cannot read properties of null (reading 'id')"),
     Sim.boot Sim.healthy).
Proof.
  assert (Forall (λ e, has_id e = true) [VObj {[ "id" := VNum (Num 1) ]}]) as Hgood.
  { repeat constructor. }
  split_and!; [exact Hgood|reflexivity|].
  by destruct (updateMany_throws_at_the_first_element_without_id "videos" _ VNull
                 [VObj {[ "title" := VStr "b" ]}]
                 (Sim.boot Sim.healthy) Hgood eq_refl) as [-> _].
Defined.

Lemma countByDay_group_key_witness :
  lodash.isObject (VObj {[ "day" := VStr "$weekday" ]}) = true ∧
  ∃ K : gmap string value,
    queryId (VStr "$savingTime") (VObj {[ "day" := VStr "$weekday" ]}) = VObj K ∧
    K !! "day" = Some (VStr "$weekday") ∧
    K !! "year" = Some (VObj {[ "$year" := VStr "$savingTime" ]}).
Proof.
  split; [reflexivity|].
  destruct (countByDay_group_key (VStr "$savingTime")
              (VObj {[ "day" := VStr "$weekday" ]})) as (K & HK & Hgiven & Hother).
  exists K. split_and!; [exact HK| |].
  - apply Hgiven; reflexivity.
  - rewrite Hother; [reflexivity|]. right. reflexivity.
Defined.

Lemma six_functions_settle_as_the_driver_does_witness :
  Mongo.connectAsync Sim.driver Sim.healthy = None ∧
  (countByMatch "videos" (VObj ∅) (Sim.boot Sim.healthy)).1
  = Settles (Fulfilled (VNum (Num 3))) ∧
  requests (journal (createIndex "videos" (VObj {[ "id" := VNum (Num 1) ]}) VUndefined
                       (Sim.boot Sim.healthy)).2)
  = [("videos", Mongo.ensureIndex (VObj {[ "id" := VNum (Num 1) ]}) VUndefined)].
Proof.
  destruct (six_functions_settle_as_the_driver_does "videos" (Sim.boot Sim.healthy)
              eq_refl) as (_ & Hcount & _ & _ & Hindex & _).
  split_and!; [reflexivity| |].
  - by rewrite (Hcount (VObj ∅) _ _ eq_refl).
  - by rewrite (Hindex (VObj {[ "id" := VNum (Num 1) ]}) VUndefined _ _ eq_refl).
Defined.

Lemma updateMany_ends_in_one_of_two_ways_witness :
  Forall (λ e, has_id e = true) Sim.videos ∧
  ((∃ w',
      applied_all "videos" Sim.videos (Sim.boot Sim.stubborn) w' ∧
      updateMany "videos" Sim.videos (Sim.boot Sim.stubborn)
      = (Settles (Fulfilled (VArr Sim.videos)), w')) ∨
   (∃ done e rest reason w1 w2,
      Sim.videos = done ++ e :: rest ∧
      applied_all "videos" done (Sim.boot Sim.stubborn) w1 ∧
      failed "videos" e reason w1 w2 ∧
      updateMany "videos" Sim.videos (Sim.boot Sim.stubborn)
      = (Settles (Rejected reason), w2))).
Proof.
  assert (Forall (λ e, has_id e = true) Sim.videos) as Hvalid.
  { repeat constructor. }
  split; [exact Hvalid|].
  apply (updateMany_ends_in_one_of_two_ways "videos" Sim.videos
           (Sim.boot Sim.stubborn) Hvalid).
Defined.

(** *** Supporters *)

Lemma get_closes_the_client_only_when_found_witness :
  member Sim3.schema "supporters" = Some (VStr "supporters") ∧
  supporters.get Sim3.schema (VStr "alice") (Sim3.boot Sim3.people)
  = (inl Sim3.alice,
     supporters.ClientWorld (M:=Sim3.api) Sim3.people
       [mongo3.Opened;
        mongo3.Asked (mongo3.readOne (VStr "supporters")
                        (VObj {[ "publicKey" := VStr "alice" ]}));
        mongo3.Close]) ∧
  supporters.get Sim3.schema (VStr "bob") (Sim3.boot Sim3.people)
  = (inr (Error "publicKey do not match any user"),
     supporters.ClientWorld (M:=Sim3.api) Sim3.people
       [mongo3.Opened;
        mongo3.Asked (mongo3.readOne (VStr "supporters")
                        (VObj {[ "publicKey" := VStr "bob" ]}))]).
Proof.
  split_and!; [reflexivity| |].
  - destruct (get_closes_the_client_only_when_found Sim3.schema (VStr "alice")
                (Sim3.boot Sim3.people) (VStr "supporters") Sim3.people
                eq_refl eq_refl) as (Hfound & _ & _).
    apply (Hfound Sim3.alice Sim3.people Sim3.people); reflexivity.
  - destruct (get_closes_the_client_only_when_found Sim3.schema (VStr "bob")
                (Sim3.boot Sim3.people) (VStr "supporters") Sim3.people
                eq_refl eq_refl) as (_ & Hnone & _).
    apply (Hnone VNull Sim3.people); reflexivity.
Defined.

Lemma update_writes_only_under_the_same_key_witness :
  Sim3.same_string (VStr "mallory") (VStr "alice") = false ∧
  (supporters.update Sim3.schema Sim3.same_string (VStr "alice")
     (VObj {[ "publicKey" := VStr "mallory" ]}) (Sim3.boot Sim3.people)).1
  = inr (Error "publicKey can't be updarted") ∧
  asked (supporters.client_log
           (supporters.update Sim3.schema Sim3.same_string (VStr "alice")
              (VObj {[ "publicKey" := VStr "mallory" ]}) (Sim3.boot Sim3.people)).2)
  = [mongo3.readOne (VStr "supporters") (VObj {[ "publicKey" := VStr "alice" ]})] ∧
  asked (supporters.client_log
           (supporters.update Sim3.schema Sim3.same_string (VStr "alice")
              (VObj {[ "publicKey" := VStr "alice"; "tag" := VStr "new" ]})
              (Sim3.boot Sim3.people)).2)
  = [mongo3.readOne (VStr "supporters") (VObj {[ "publicKey" := VStr "alice" ]});
     mongo3.updateOne (VStr "supporters") (VObj {[ "publicKey" := VStr "alice" ]})
       (VObj {[ "publicKey" := VStr "alice"; "tag" := VStr "new" ]})].
Proof.
  assert (member (VObj {[ "publicKey" := VStr "mallory" ]}) "publicKey"
          = Some (VStr "mallory")) as Hmallory by reflexivity.
  assert (member (VObj {[ "publicKey" := VStr "alice"; "tag" := VStr "new" ]})
            "publicKey" = Some (VStr "alice")) as Halice by reflexivity.
  assert (mongo3.execute Sim3.api
            (mongo3.readOne (VStr "supporters")
               (VObj {[ "publicKey" := VStr "alice" ]})) Sim3.people
          = (inl Sim3.alice, Sim3.people)) as Hread by reflexivity.
  destruct (update_writes_only_under_the_same_key Sim3.schema Sim3.same_string
              (VStr "alice") (VObj {[ "publicKey" := VStr "mallory" ]})
              (Sim3.boot Sim3.people) (VStr "supporters") Sim3.people
              Sim3.alice Sim3.people (VStr "mallory")
              eq_refl eq_refl Hread eq_refl Hmallory) as [Hother _].
  destruct (update_writes_only_under_the_same_key Sim3.schema Sim3.same_string
              (VStr "alice")
              (VObj {[ "publicKey" := VStr "alice"; "tag" := VStr "new" ]})
              (Sim3.boot Sim3.people) (VStr "supporters") Sim3.people
              Sim3.alice Sim3.people (VStr "alice")
              eq_refl eq_refl Hread eq_refl Halice) as [_ Hsame].
  split_and!; [reflexivity| | |].
  - by rewrite (Hother eq_refl).
  - by rewrite (Hother eq_refl).
  - by erewrite (Hsame eq_refl _ _ _ eq_refl eq_refl).
Defined.

Lemma remove_deletes_by_public_key_witness :
  member Sim3.schema "supporters" = Some (VStr "supporters") ∧
  asked (supporters.client_log
           (supporters.remove Sim3.schema VUndefined (Sim3.boot Sim3.people)).2)
  = [mongo3.deleteMany (VStr "supporters") (VObj {[ "publicKey" := VUndefined ]})] ∧
  closed (supporters.client_log
            (supporters.remove Sim3.schema VUndefined (Sim3.boot Sim3.people)).2) = 1.
Proof.
  destruct (remove_deletes_by_public_key Sim3.schema VUndefined
              (Sim3.boot Sim3.people) (VStr "supporters") Sim3.people
              eq_refl eq_refl) as [Hdeleted _].
  erewrite (Hdeleted _ _ _ eq_refl eq_refl).
  split_and!; reflexivity.
Defined.

Lemma update_never_writes_under_another_key_witness :
  (∀ key, member VNull "publicKey" = Some key →
          Sim3.same_string key (VStr "alice") = false) ∧
  ∃ error steps,
    (supporters.update Sim3.schema Sim3.same_string (VStr "alice") VNull
       (Sim3.boot Sim3.people)).1 = inr error ∧
    supporters.client_log
      (supporters.update Sim3.schema Sim3.same_string (VStr "alice") VNull
         (Sim3.boot Sim3.people)).2
    = supporters.client_log (Sim3.boot Sim3.people) ++ steps ∧
    forallb reads_only (asked steps) = true.
Proof.
  assert (∀ key, member VNull "publicKey" = Some key →
                 Sim3.same_string key (VStr "alice") = false) as Hother.
  { intros key Hkey. discriminate Hkey. }
  split; [exact Hother|].
  apply (update_never_writes_under_another_key Sim3.schema Sim3.same_string
           (VStr "alice") VNull (Sim3.boot Sim3.people) Hother).
Defined.
